(** * Chemical Company API: a shallow embedding of [main.py] and [schemas.py]

    The request handlers of [main.py] and the entity schemas of [schemas.py]
    are embedded as Rocq functions.  JSON objects and Python dicts are finite
    maps from field names to values; a handler that can raise returns a sum
    whose left side is the exception.

    Conventions of the embedding:
    - a Python [str] is a Rocq [string], one [ascii] per character, so that
      slicing and case folding act character by character on ASCII text;
    - [Optional[str]] query parameters are [option string], and Python
      truthiness of such a value is [truthy];
    - the module [database] ([db], [get_documents], [create_document]) is not
      among the sources; it is modelled from the specification, and the
      filter operators of the document store are modelled for the fragment
      the handlers use. *)

From Stdlib Require Import ZArith NArith Ascii String.
From stdpp Require Import gmap strings list fin_maps.

Open Scope string_scope.

(** ** Values and documents *)

#[local] Set Warnings "-register-all".

Inductive value :=
| VNone                      (* Python None, JSON null *)
| VStr (s : string)
| VInt (n : Z)
| VObjectId (n : N)          (* identifier assigned by the store *)
| VList (l : list value).

#[local] Set Warnings "register-all".

(** A document (a Python dict with string keys). *)
Abbreviation doc := (gmap string value).

Definition is_str (v : value) : bool :=
  match v with VStr _ => true | _ => false end.

Definition is_VStr (s : string) (v : value) : bool :=
  match v with VStr s' => String.eqb s' s | _ => false end.

(** Truthiness of an [Optional[str]]: [None] and the empty string are falsy.
    [truthy o] is the string that passes the test [if o:], if any. *)
Definition truthy (o : option string) : option string :=
  match o with
  | Some s => if String.eqb s "" then None else Some s
  | None => None
  end.

(** ** Strings *)

(** Case folding of the letters A to Z; every other character, and so every
    character outside ASCII, is left as it is. *)
Definition lower_ascii (c : ascii) : ascii :=
  let n := nat_of_ascii c in
  if Nat.leb 65 n && Nat.leb n 90 then ascii_of_nat (n + 32) else c.

Fixpoint lower (s : string) : string :=
  match s with
  | EmptyString => EmptyString
  | String c s' => String (lower_ascii c) (lower s')
  end.

(** [s[:n]] *)
Fixpoint str_take (n : nat) (s : string) : string :=
  match n, s with
  | S n', String c s' => String c (str_take n' s')
  | _, _ => EmptyString
  end.

(** [y] occurs in [s] as a substring, ignoring the case of the letters A to
    Z: the reading of "appears, case-insensitively, as a substring" used by
    the statements, which are made for ASCII text. *)
Definition occurs_ci (y s : string) : Prop :=
  ∃ a m b, s = a ++ m ++ b ∧ lower m = lower y.

(** ** Entity schemas ([schemas.py]) *)

Inductive ftype :=
| TStr            (* str *)
| TOptStr         (* Optional[str] *)
| TOptListStr     (* Optional[List[str]] *)
| TOptDate.       (* Optional[date] *)

Inductive fdefault :=
| Required                   (* Field(...), or no default *)
| Default (v : value)        (* = None, Field(None), Field("it") *)
| DefaultFactoryList.        (* Field(default_factory=list) *)

Record field := Field {
  field_name : string;
  field_type : ftype;
  field_default : fdefault
}.

Definition Category : list field :=
  [ Field "name" TStr Required;
    Field "slug" TStr Required;
    Field "description" TOptStr (Default VNone) ].

Definition Product : list field :=
  [ Field "name" TStr Required;
    Field "slug" TStr Required;
    Field "category" TStr Required;
    Field "summary" TOptStr (Default VNone);
    Field "description" TOptStr (Default VNone);
    Field "applications" TOptListStr DefaultFactoryList;
    Field "benefits" TOptListStr DefaultFactoryList;
    Field "sectors" TOptListStr DefaultFactoryList;
    Field "documentation_urls" TOptListStr DefaultFactoryList;
    Field "keywords" TOptListStr DefaultFactoryList;
    Field "image_url" TOptStr (Default VNone) ].

Definition Sector : list field :=
  [ Field "name" TStr Required;
    Field "slug" TStr Required;
    Field "challenges" TOptListStr DefaultFactoryList;
    Field "needs" TOptListStr DefaultFactoryList;
    Field "solutions" TOptListStr DefaultFactoryList;
    Field "outcomes" TOptListStr DefaultFactoryList;
    Field "image_url" TOptStr (Default VNone) ].

Definition News : list field :=
  [ Field "title" TStr Required;
    Field "slug" TStr Required;
    Field "excerpt" TOptStr (Default VNone);
    Field "content" TOptStr (Default VNone);
    Field "cover_image_url" TOptStr (Default VNone);
    Field "published_at" TOptDate (Default VNone);
    Field "tags" TOptListStr DefaultFactoryList ].

Definition Document : list field :=
  [ Field "title" TStr Required;
    Field "description" TOptStr (Default VNone);
    Field "url" TStr Required;
    Field "category" TOptStr (Default VNone);
    Field "product_slug" TOptStr (Default VNone);
    Field "language" TOptStr (Default (VStr "it")) ].

Definition Job : list field :=
  [ Field "title" TStr Required;
    Field "slug" TStr Required;
    Field "location" TOptStr (Default VNone);
    Field "department" TOptStr (Default VNone);
    Field "type" TOptStr (Default VNone);
    Field "description" TOptStr (Default VNone);
    Field "requirements" TOptListStr DefaultFactoryList ].

Definition Application : list field :=
  [ Field "name" TStr Required;
    Field "email" TStr Required;
    Field "phone" TOptStr (Default VNone);
    Field "job_slug" TOptStr (Default VNone);
    Field "message" TOptStr (Default VNone);
    Field "cv_url" TOptStr (Default VNone);
    Field "linkedin_url" TOptStr (Default VNone) ].

Definition ContactMessage : list field :=
  [ Field "name" TStr Required;
    Field "email" TStr Required;
    Field "phone" TOptStr (Default VNone);
    Field "company" TOptStr (Default VNone);
    Field "subject" TOptStr (Default VNone);
    Field "message" TStr Required;
    Field "topic" TOptStr (Default VNone) ].

Definition CompanyProfile : list field :=
  [ Field "company_name" TStr Required;
    Field "mission" TOptStr (Default VNone);
    Field "vision" TOptStr (Default VNone);
    Field "values" TOptListStr DefaultFactoryList;
    Field "history" TOptStr (Default VNone);
    Field "facilities" TOptListStr DefaultFactoryList;
    Field "locations" TOptListStr DefaultFactoryList;
    Field "quality_approach" TOptStr (Default VNone);
    Field "safety_approach" TOptStr (Default VNone);
    Field "innovation_approach" TOptStr (Default VNone) ].

(** Every entity schema of [schemas.py]. *)
Definition schemas : list (list field) :=
  [ Category; Product; Sector; News; Document; Job;
    Application; ContactMessage; CompanyProfile ].

(** ** Validation of a raw mapping against a schema

    What the base class of the schemas does with an input object: a field
    that is present is type-checked, a field that is absent takes its
    default, a required field that is absent is an error, and keys that the
    schema does not declare are ignored.  Every offending field is
    reported. *)

Definition is_digit (c : ascii) : bool :=
  let n := nat_of_ascii c in Nat.leb 48 n && Nat.leb n 57.

(** Calendar dates arrive as text of the form YYYY-MM-DD. *)
Definition is_iso_date (s : string) : bool :=
  match list_ascii_of_string s with
  | [y1; y2; y3; y4; d1; m1; m2; d2; a1; a2] =>
      forallb is_digit [y1; y2; y3; y4; m1; m2; a1; a2]
      && Ascii.eqb d1 "-" && Ascii.eqb d2 "-"
  | _ => false
  end.

Definition check_type (t : ftype) (v : value) : bool :=
  match t, v with
  | TStr, VStr _ => true
  | TOptStr, VStr _ => true
  | TOptStr, VNone => true
  | TOptListStr, VList l => forallb is_str l
  | TOptListStr, VNone => true
  | TOptDate, VStr s => is_iso_date s
  | TOptDate, VNone => true
  | _, _ => false
  end.

(** A validation error: the offending field and the kind of error. *)
Definition verror : Type := string * string.

Definition validate_field (f : field) (raw : doc) : verror + value :=
  match raw !! field_name f with
  | Some v =>
      if check_type (field_type f) v then inr v
      else inl (field_name f, "type_error")
  | None =>
      match field_default f with
      | Required => inl (field_name f, "missing")
      | Default v => inr v
      | DefaultFactoryList => inr (VList [])
      end
  end.

(** Errors of all fields, and the record built from the fields that pass. *)
Fixpoint validate_fields (fs : list field) (raw : doc) : list verror * doc :=
  match fs with
  | [] => ([], ∅)
  | f :: fs' =>
      let '(errs, rec) := validate_fields fs' raw in
      match validate_field f raw with
      | inl e => (e :: errs, rec)
      | inr v => (errs, <[field_name f := v]> rec)
      end
  end.

Definition model_validate (schema : list field) (raw : doc) : list verror + doc :=
  match validate_fields schema raw with
  | ([], rec) => inr rec
  | (errs, _) => inl errs
  end.

(** A stored document conforms to a schema when each declared field is
    either of the declared type or, if it has a default, missing. *)
Definition conforms (schema : list field) (d : doc) : bool :=
  forallb (λ f,
    match d !! field_name f with
    | Some v => check_type (field_type f) v
    | None => match field_default f with Required => false | _ => true end
    end) schema.

(** ** Exceptions *)

Inductive failure :=
| HTTPException (status_code : Z) (detail : string)
| RequestValidationError (errors : list verror)
| Exception (msg : string)
| NotModelled.   (* the store is asked something outside the modelled fragment *)

(** The status line the framework gives a request whose handling raised. *)
Definition status_of (f : failure) : option Z :=
  match f with
  | HTTPException status_code _ => Some status_code
  | RequestValidationError _ => Some 422%Z
  | Exception _ => Some 500%Z
  | NotModelled => None
  end.

(** ** Filters of the document store

    A filter is the dict a handler assembles.  A key maps either to a string
    (match on the stored field) or, under ["$or"], to a list of clauses
    [{field: {"$regex": pattern, "$options": options}}]. *)

Inductive condition :=
| Eq (v : string)
| OrRegex (clauses : list (string * string * string)).

Abbreviation filter_dict := (gmap string condition).

(** *** The pattern language

    The store reads the text of ["$regex"] as a Perl-style pattern.  The
    fragment modelled here has ordinary characters, which stand for
    themselves, and the dot, which stands for any character but a line feed.
    A pattern with another metacharacter is outside the fragment. *)

Inductive atom :=
| Lit (c : ascii)
| Dot.

Definition metachars : list ascii :=
  list_ascii_of_string "\^$.|?*+()[]{}".

Definition is_meta (c : ascii) : bool := existsb (Ascii.eqb c) metachars.

Fixpoint compile (pattern : string) : option (list atom) :=
  match pattern with
  | EmptyString => Some []
  | String c rest =>
      match compile rest with
      | Some r =>
          if Ascii.eqb c "." then Some (Dot :: r)
          else if is_meta c then None
          else Some (Lit c :: r)
      | None => None
      end
  end.

(** Option ["i"] folds case; no option is exact; anything else is outside
    the fragment. *)
Definition fold_case (options : string) : option bool :=
  if String.eqb options "i" then Some true
  else if String.eqb options "" then Some false
  else None.

Definition line_feed : ascii := ascii_of_nat 10.

Definition atom_matches (ci : bool) (a : atom) (c : ascii) : bool :=
  match a with
  | Lit x => if ci then Ascii.eqb (lower_ascii x) (lower_ascii c) else Ascii.eqb x c
  | Dot => negb (Ascii.eqb c line_feed)
  end.

(** The pattern matches at the start of the subject. *)
Fixpoint match_here (ci : bool) (r : list atom) (s : string) : bool :=
  match r, s with
  | [], _ => true
  | a :: r', String c s' => atom_matches ci a c && match_here ci r' s'
  | _ :: _, EmptyString => false
  end.

(** The pattern matches somewhere in the subject (patterns are not anchored). *)
Fixpoint search (ci : bool) (r : list atom) (s : string) : bool :=
  match_here ci r s ||
  match s with
  | String _ s' => search ci r s'
  | EmptyString => false
  end.

Definition clause_supported (cl : string * string * string) : bool :=
  let '(_, pattern, options) := cl in
  bool_decide (is_Some (compile pattern)) && bool_decide (is_Some (fold_case options)).

Definition condition_supported (c : condition) : bool :=
  match c with
  | Eq _ => true
  | OrRegex clauses => forallb clause_supported clauses
  end.

Definition filter_supported (flt : filter_dict) : bool :=
  bool_decide (map_Forall (λ _ c, condition_supported c = true) flt).

(** A pattern applies to a string field, and to a list field when one of
    its string elements matches; it never matches a value of another kind
    or a missing field. *)
Definition regex_holds (ci : bool) (r : list atom) (v : option value) : bool :=
  match v with
  | Some (VStr s) => search ci r s
  | Some (VList l) =>
      existsb (λ x, match x with VStr s => search ci r s | _ => false end) l
  | _ => false
  end.

Definition clause_holds (d : doc) (cl : string * string * string) : bool :=
  let '(fld, pattern, options) := cl in
  match compile pattern, fold_case options with
  | Some r, Some ci => regex_holds ci r (d !! fld)
  | _, _ => false
  end.

(** A string condition holds of a field equal to the string and of a list
    field that has the string as a member. *)
Definition eq_holds (v : string) (x : option value) : bool :=
  match x with
  | Some (VStr s) => String.eqb s v
  | Some (VList l) => existsb (is_VStr v) l
  | _ => false
  end.

Definition condition_holds (d : doc) (k : string) (c : condition) : bool :=
  match c with
  | Eq v => eq_holds v (d !! k)
  | OrRegex clauses => existsb (clause_holds d) clauses
  end.

(** Modelled from the spec: the filter conventions of [find_many] in the
    store of [database.py] (section 4.2).  A document matches a filter when
    every entry of the filter holds; the empty filter matches every
    document.  An entry under ["$or"] is read as what [main.py] writes
    there, a list of ["$regex"] clauses for the store's pattern operator. *)
Definition matches (flt : filter_dict) (d : doc) : bool :=
  bool_decide (map_Forall (λ k c, condition_holds d k c = true) flt).

(** ** The store ([database.py]) *)

(** The outcome of reading an attribute of an object. *)
Inductive attr :=
| AttrAbsent                 (* the object has no such attribute *)
| AttrIs (v : string)
| AttrRaises (msg : string). (* reading the attribute raises *)

(** Modelled from the spec: the process-wide store handle [db] of
    [database.py] (sections 4.2 and 5).  The handle is [None] when
    initialisation failed, and [Some] of a connected store otherwise.  A
    connected store holds its collections in insertion order and assigns
    identifiers; it may be in a state in which every call to it raises. *)
Record Database := mkDatabase {
  name : attr;
  fault : option string;               (* [Some msg]: calls to the store raise *)
  collections : gmap string (list doc);
  next_id : N                          (* next identifier the store assigns *)
}.

(** Modelled from the spec: the records of a named collection of
    [database.py]'s store, in insertion order; a collection that was never
    written is empty. *)
Definition collection (d : Database) (collection_name : string) : list doc :=
  default [] (collections d !! collection_name).

(** Modelled from the spec: [find_many(collection_name, filter, limit?)]
    returns the records that match, in insertion order, truncated to
    [limit] when one is given; the empty filter returns all records. *)
Definition get_documents (db : option Database) (collection_name : string)
    (flt : filter_dict) (limit : option nat) : failure + list doc :=
  match db with
  | None => inl (Exception "Database not available")
  | Some d =>
      match fault d with
      | Some msg => inl (Exception msg)
      | None =>
          if filter_supported flt then
            let found := List.filter (matches flt) (collection d collection_name) in
            inr (match limit with Some n => take n found | None => found end)
          else inl NotModelled
      end
  end.

(** Modelled from the spec: [insert_one(collection_name, record)] persists
    the record verbatim, assigning the store-internal identifier, and returns
    nothing; it fails when the store is unset or in fault. *)
Definition create_document (db : option Database) (collection_name : string)
    (data : doc) : (failure + unit) * option Database :=
  match db with
  | None => (inl (Exception "Database not available"), db)
  | Some d =>
      match fault d with
      | Some msg => (inl (Exception msg), db)
      | None =>
          let stored := <["_id" := VObjectId (next_id d)]> data in
          (inr (),
           Some {| name := name d;
                   fault := fault d;
                   collections :=
                     <[collection_name := (collection d collection_name ++ [stored])%list]>
                       (collections d);
                   next_id := N.succ (next_id d) |})
      end
  end.

(** Modelled from the spec: [db.list_collection_names()], the names of the
    collections visible to the store of [database.py]; it raises when the
    store is in fault. *)
Definition list_collection_names (d : Database) : string + list string :=
  match fault d with
  | Some msg => inl msg
  | None => inr (map_to_list (collections d)).*1
  end.

(** ** Raising and catching

    A handler that can raise returns [failure + A]; [x ← m; k] runs [k]
    when [m] returns and propagates what [m] raises. *)

#[global] Instance failure_bind : MBind (sum failure) := λ A B k m,
  match m with
  | inl e => inl e
  | inr a => k a
  end.

#[global] Instance failure_fmap : FMap (sum failure) := λ A B f m,
  match m with
  | inl e => inl e
  | inr a => inr (f a)
  end.

(** The diagnostic handler fills a dict while it probes the store, inside
    [try] blocks.  [Run A] is a computation over that dict that returns an
    [A] or raises the text of an exception; what was written to the dict
    before a raise stays written. *)
Definition Run (A : Type) : Type := doc → (string + A) * doc.

#[global] Instance Run_ret : MRet Run := λ A a response, (inr a, response).

#[global] Instance Run_bind : MBind Run := λ A B k m response,
  match m response with
  | (inl e, response') => (inl e, response')
  | (inr a, response') => k a response'
  end.

(** [response[k] = v] *)
Definition setitem (k : string) (v : value) : Run unit :=
  λ response, (inr (), <[k := v]> response).

(** The outcome of a call that may raise. *)
Definition call {A} (outcome : string + A) : Run A :=
  λ response, (outcome, response).

(** [try: body  except Exception as e: handler e] *)
Definition try_except (body : Run unit) (handler : string → Run unit) : Run unit :=
  λ response,
    match body response with
    | (inl e, response') => handler e response'
    | (inr tt, response') => (inr tt, response')
    end.

(** ** Request handlers ([main.py]) *)

Definition root : doc := {[ "message" := VStr "Chemical Company API running" ]}.

(** [it.pop("_id", None)] for each item. *)
Definition _serialize_list (items : list doc) : list doc :=
  map (delete "_id") items.

Definition list_categories (db : option Database) : failure + list doc :=
  items ← get_documents db "category" ∅ None;
  inr (_serialize_list items).

Definition list_products (db : option Database) (category q : option string)
    : failure + list doc :=
  let flt : filter_dict := ∅ in
  let flt :=
    match truthy category with
    | Some category => <["category" := Eq category]> flt
    | None => flt
    end in
  let flt :=
    match truthy q with
    | Some q =>
        <["$or" := OrRegex [ ("name", q, "i");
                              ("summary", q, "i");
                              ("description", q, "i");
                              ("keywords", q, "i") ]]> flt
    | None => flt
    end in
  items ← get_documents db "product" flt None;
  inr (_serialize_list items).

Definition get_product (db : option Database) (slug : string) : failure + doc :=
  items ← get_documents db "product" {[ "slug" := Eq slug ]} (Some 1);
  match items with
  | [] => inl (HTTPException 404 "Product not found")
  | item :: _ => inr (delete "_id" item)
  end.

Definition list_sectors (db : option Database) : failure + list doc :=
  items ← get_documents db "sector" ∅ None;
  inr (_serialize_list items).

Definition get_sector (db : option Database) (slug : string) : failure + doc :=
  items ← get_documents db "sector" {[ "slug" := Eq slug ]} (Some 1);
  match items with
  | [] => inl (HTTPException 404 "Sector not found")
  | item :: _ => inr (delete "_id" item)
  end.

Definition list_news (db : option Database) (tag : option string)
    : failure + list doc :=
  let flt : filter_dict :=
    match truthy tag with
    | Some tag => {[ "tags" := Eq tag ]}
    | None => ∅
    end in
  items ← get_documents db "news" flt None;
  inr (_serialize_list items).

Definition list_documents (db : option Database)
    (product category language : option string) : failure + list doc :=
  let flt : filter_dict := ∅ in
  let flt :=
    match truthy product with
    | Some product => <["product_slug" := Eq product]> flt
    | None => flt
    end in
  let flt :=
    match truthy category with
    | Some category => <["category" := Eq category]> flt
    | None => flt
    end in
  let flt :=
    match truthy language with
    | Some language => <["language" := Eq language]> flt
    | None => flt
    end in
  items ← get_documents db "document" flt None;
  inr (_serialize_list items).

Definition list_jobs (db : option Database) (department : option string)
    : failure + list doc :=
  let flt : filter_dict :=
    match truthy department with
    | Some department => {[ "department" := Eq department ]}
    | None => ∅
    end in
  items ← get_documents db "job" flt None;
  inr (_serialize_list items).

Definition status_ok : doc := {[ "status" := VStr "ok" ]}.

Definition submit_application (db : option Database) (payload : doc)
    : (failure + doc) * option Database :=
  match create_document db "application" payload with
  | (inl e, db') => (inl e, db')
  | (inr tt, db') => (inr status_ok, db')
  end.

Definition submit_contact (db : option Database) (payload : doc)
    : (failure + doc) * option Database :=
  match create_document db "contactmessage" payload with
  | (inl e, db') => (inl e, db')
  | (inr tt, db') => (inr status_ok, db')
  end.

Definition default_company : doc := {[ "company_name" := VStr "Azienda Chimica" ]}.

Definition get_company (db : option Database) : failure + doc :=
  items ← get_documents db "companyprofile" ∅ (Some 1);
  match items with
  | [] => inr default_company
  | item :: _ => inr (delete "_id" item)
  end.

(** *** The diagnostic handler *)

(** [hasattr(db, 'name')]: an exception other than a missing attribute
    propagates. *)
Definition hasattr_name (d : Database) : string + bool :=
  match name d with
  | AttrAbsent => inr false
  | AttrIs _ => inr true
  | AttrRaises msg => inl msg
  end.

(** [db.name] *)
Definition getattr_name (d : Database) : string + string :=
  match name d with
  | AttrAbsent => inl "'Database' object has no attribute 'name'"
  | AttrIs v => inr v
  | AttrRaises msg => inl msg
  end.

(** [os.getenv(k)] as a condition: set, and not empty. *)
Definition getenv_truthy (environ : gmap string string) (k : string) : bool :=
  match environ !! k with
  | Some v => negb (String.eqb v "")
  | None => false
  end.

Definition initial_response : doc :=
  <["backend" := VStr "✅ Running"]>
  (<["database" := VStr "❌ Not Available"]>
  (<["database_url" := VNone]>
  (<["database_name" := VNone]>
  (<["connection_status" := VStr "Not Connected"]>
  (<["collections" := VList []]> ∅))))).

(** The inner [try] of [test_database]. *)
Definition probe_collections (d : Database) : Run unit :=
  try_except
    (collections ← call (list_collection_names d);
     setitem "collections" (VList (VStr <$> take 10 collections));;
     setitem "database" (VStr "✅ Connected & Working"))
    (λ e, setitem "database"
            (VStr ("⚠️  Connected but Error: " ++ str_take 50 e))).

(** The outer [try] of [test_database]. *)
Definition probe (db : option Database) : Run unit :=
  try_except
    (match db with
     | Some d =>
         setitem "database" (VStr "✅ Available");;
         setitem "database_url" (VStr "✅ Configured");;
         has ← call (hasattr_name d);
         database_name ← (if has : bool then call (getattr_name d)
                          else mret "✅ Connected");
         setitem "database_name" (VStr database_name);;
         setitem "connection_status" (VStr "Connected");;
         probe_collections d
     | None =>
         setitem "database" (VStr "⚠️  Available but not initialized")
     end)
    (λ e, setitem "database" (VStr ("❌ Error: " ++ str_take 50 e))).

Definition test_database (db : option Database) (environ : gmap string string)
    : failure + doc :=
  let run : Run unit :=
    probe db;;
    setitem "database_url"
      (VStr (if getenv_truthy environ "DATABASE_URL" then "✅ Set" else "❌ Not Set"));;
    setitem "database_name"
      (VStr (if getenv_truthy environ "DATABASE_NAME" then "✅ Set" else "❌ Not Set")) in
  match run initial_response with
  | (inl e, _) => inl (Exception e)
  | (inr tt, response) => inr response
  end.

(** ** The application: routing, and validation of request bodies

    [app] runs the handler behind a route, after the validation of the
    request body; what the route then does with the value the handler
    returns, through its response model, is [serve] below. *)

Inductive request :=
| GET_root
| GET_categories
| GET_products (category q : option string)
| GET_product (slug : string)
| GET_sectors
| GET_sector (slug : string)
| GET_news (tag : option string)
| GET_documents (product category language : option string)
| GET_jobs (department : option string)
| POST_applications (body : doc)
| POST_contact (body : doc)
| GET_company
| GET_test.

(** What a handler returns: a list of records or one object. *)
Inductive body :=
| Items (items : list doc)
| Item (item : doc).

(** The records in a response body. *)
Definition records (b : body) : list doc :=
  match b with
  | Items items => items
  | Item item => [item]
  end.

(** A request body is validated against the schema of the handler's
    parameter before the handler runs; when validation fails the handler
    does not run. *)
Definition with_payload (schema : list field) (raw : doc)
    (handler : doc → (failure + doc) * option Database) (db : option Database)
    : (failure + doc) * option Database :=
  match model_validate schema raw with
  | inl errors => (inl (RequestValidationError errors), db)
  | inr payload => handler payload
  end.

Definition app (db : option Database) (environ : gmap string string) (r : request)
    : (failure + body) * option Database :=
  match r with
  | GET_root => (inr (Item root), db)
  | GET_categories => (Items <$> list_categories db, db)
  | GET_products category q => (Items <$> list_products db category q, db)
  | GET_product slug => (Item <$> get_product db slug, db)
  | GET_sectors => (Items <$> list_sectors db, db)
  | GET_sector slug => (Item <$> get_sector db slug, db)
  | GET_news tag => (Items <$> list_news db tag, db)
  | GET_documents product category language =>
      (Items <$> list_documents db product category language, db)
  | GET_jobs department => (Items <$> list_jobs db department, db)
  | POST_applications raw =>
      let '(r, db') := with_payload Application raw (submit_application db) db in
      (Item <$> r, db')
  | POST_contact raw =>
      let '(r, db') := with_payload ContactMessage raw (submit_contact db) db in
      (Item <$> r, db')
  | GET_company => (Item <$> get_company db, db)
  | GET_test => (Item <$> test_database db environ, db)
  end.

(** ** What the statements speak of *)

(** The response of a handler, as a status line. *)
Definition status {A} (r : failure + A) : option Z :=
  match r with
  | inr _ => Some 200%Z
  | inl f => status_of f
  end.

(** The body the framework sends for an [HTTPException]. *)
Definition error_body (f : failure) : option doc :=
  match f with
  | HTTPException _ detail => Some {[ "detail" := VStr detail ]}
  | _ => None
  end.

(** The store answers, and what it holds in a collection has the shape of
    the entity. *)
Definition available (d : Database) : Prop := fault d = None.

Definition holds (d : Database) (collection_name : string) (schema : list field) : Prop :=
  forallb (conforms schema) (collection d collection_name) = true.

(** The stored record has this slug. *)
Definition has_slug (slug : string) (p : doc) : bool :=
  match p !! "slug" with
  | Some (VStr s) => String.eqb s slug
  | _ => false
  end.

(** A pattern without metacharacters, and its compiled form. *)
Fixpoint meta_free (y : string) : bool :=
  match y with
  | EmptyString => true
  | String c rest => negb (is_meta c) && meta_free rest
  end.

Fixpoint lits (y : string) : list atom :=
  match y with
  | EmptyString => []
  | String c rest => Lit c :: lits rest
  end.

(** [y] appears in a field: in its text, or in the text of one of its
    elements when the field is a list. *)
Definition appears_in (y : string) (v : option value) : Prop :=
  match v with
  | Some (VStr s) => occurs_ci y s
  | Some (VList l) => ∃ s, VStr s ∈ l ∧ occurs_ci y s
  | _ => False
  end.

Definition searched_fields : list string :=
  ["name"; "summary"; "description"; "keywords"].

Definition text_hit (y : string) (p : doc) : Prop :=
  ∃ f, f ∈ searched_fields ∧ appears_in y (p !! f).

(** The statements about the filtered listings, as the specification words
    them. *)

(** [GET /api/products?q=y] returns exactly the stored products in which
    [y] appears in one of the searched fields. *)
Definition products_q_exact (d : Database) (y : string) : Prop :=
  ∃ sel : doc → bool,
    (∀ p, p ∈ collection d "product" → sel p = true ↔ text_hit y p) ∧
    list_products (Some d) None (Some y) =
      inr (_serialize_list (List.filter sel (collection d "product"))).

(** [GET /api/products?category=x] returns only stored products whose
    category is [x]. *)
Definition products_category_only (d : Database) (x : string) : Prop :=
  ∃ items,
    list_products (Some d) (Some x) None = inr items ∧
    ∀ it, it ∈ items →
      ∃ p, p ∈ collection d "product" ∧ it = delete "_id" p ∧
           p !! "category" = Some (VStr x).

(** [GET /api/news?tag=t] returns only stored news whose tags have [t] as
    a member. *)
Definition news_tag_only (d : Database) (t : string) : Prop :=
  ∃ items,
    list_news (Some d) (Some t) = inr items ∧
    ∀ it, it ∈ items →
      ∃ n l, n ∈ collection d "news" ∧ it = delete "_id" n ∧
             n !! "tags" = Some (VList l) ∧ VStr t ∈ l.

(** The [$or] clauses [list_products] builds for [q]. *)
Definition q_clauses (q : string) : list (string * string * string) :=
  [ ("name", q, "i"); ("summary", q, "i");
    ("description", q, "i"); ("keywords", q, "i") ].

(** A list-typed field carries the list factory as its default. *)
Definition list_default_ok (f : field) : bool :=
  match field_type f, field_default f with
  | TOptListStr, DefaultFactoryList => true
  | TOptListStr, _ => false
  | _, _ => true
  end.

(** What the diagnostic is to report about the store: the status text and
    the collection names listed. *)
Definition expected_report (db : option Database) : string * list string :=
  match db with
  | None => ("⚠️  Available but not initialized", [])
  | Some d =>
      match hasattr_name d with
      | inl e => ("❌ Error: " ++ str_take 50 e, [])
      | inr _ =>
          match list_collection_names d with
          | inl e => ("⚠️  Connected but Error: " ++ str_take 50 e, [])
          | inr names => ("✅ Connected & Working", take 10 names)
          end
      end
  end.

(** ** Sample data *)

Definition formic_acid : doc :=
  <["_id" := VObjectId 1]>
  (<["name" := VStr "Acido Formico"]>
  (<["slug" := VStr "acido-formico"]>
  (<["category" := VStr "acids"]>
  (<["keywords" := VList [VStr "conceria"; VStr "pH"]]> ∅)))).

Definition solvent : doc :=
  <["_id" := VObjectId 2]>
  (<["name" := VStr "Solvente X"]>
  (<["slug" := VStr "solvente-x"]>
  (<["category" := VStr "solvents"]>
  (<["summary" := VStr "Basso odore"]> ∅)))).

Definition fair : doc :=
  <["_id" := VObjectId 3]>
  (<["title" := VStr "Fiera di Milano"]>
  (<["slug" := VStr "fiera"]>
  (<["tags" := VList [VStr "eventi"]]> ∅))).

Definition cms : Database :=
  {| name := AttrIs "cms";
     fault := None;
     collections := <["product" := [formic_acid; solvent]]> (<["news" := [fair]]> ∅);
     next_id := 4 |}.

Definition press_release : doc :=
  <["title" := VStr "Nuovo impianto"]> (<["slug" := VStr "nuovo-impianto"]> ∅).

Definition anonymous_application : doc :=
  <["name" := VStr "Mario Rossi"]> (<["message" := VStr "Buongiorno"]> ∅).

(** ** Vocabulary of the further properties *)

(** The record has the text [v] in field [k]. *)
Definition field_is (k v : string) (p : doc) : bool :=
  match p !! k with
  | Some (VStr s) => String.eqb s v
  | _ => false
  end.

(** What an optional query parameter asks of field [k]: nothing when the
    parameter is omitted or empty. *)
Definition wanted (param : option string) (k : string) (p : doc) : bool :=
  match truthy param with
  | Some v => field_is k v p
  | None => true
  end.

(** The keys of the diagnostic response. *)
Definition report_keys : gset string :=
  list_to_set [ "backend"; "database"; "database_url"; "database_name";
                "connection_status"; "collections" ].

(** How the diagnostic reports an environment variable. *)
Definition set_or_not (environ : gmap string string) (k : string) : value :=
  VStr (if getenv_truthy environ k then "✅ Set" else "❌ Not Set").

(** The field names a schema declares. *)
Definition field_names (schema : list field) : list string :=
  field_name <$> schema.

(** A request that reads or writes the store. *)
Definition uses_store (r : request) : bool :=
  match r with
  | GET_root | GET_test => false
  | _ => true
  end.

Definition is_post (r : request) : bool :=
  match r with
  | POST_applications _ | POST_contact _ => true
  | _ => false
  end.

(** ** More sample data *)

Definition tannery : doc :=
  <["_id" := VObjectId 10]>
  (<["name" := VStr "Conceria"]> (<["slug" := VStr "conceria"]> ∅)).

Definition datasheet : doc :=
  <["_id" := VObjectId 11]>
  (<["title" := VStr "Scheda tecnica"]>
  (<["url" := VStr "https://example.com/scheda.pdf"]>
  (<["category" := VStr "datasheet"]>
  (<["product_slug" := VStr "acido-formico"]>
  (<["language" := VStr "it"]> ∅))))).

Definition catalog : doc :=
  <["_id" := VObjectId 12]>
  (<["title" := VStr "Catalogue"]>
  (<["url" := VStr "https://example.com/catalogue.pdf"]>
  (<["category" := VStr "catalog"]>
  (<["language" := VStr "en"]> ∅)))).

Definition chemist : doc :=
  <["_id" := VObjectId 13]>
  (<["title" := VStr "Chimico"]>
  (<["slug" := VStr "chimico"]>
  (<["department" := VStr "R&D"]> ∅))).

Definition profile : doc :=
  <["_id" := VObjectId 14]> (<["company_name" := VStr "Chimica Rossi"]> ∅).

Definition site : Database :=
  {| name := AttrIs "site";
     fault := None;
     collections :=
       <["sector" := [tannery]]>
       (<["document" := [datasheet; catalog]]>
       (<["job" := [chemist]]>
       (<["companyprofile" := [profile]]>
       (<["product" := [formic_acid; solvent]]> ∅))));
     next_id := 15 |}.

Definition enquiry : doc :=
  <["name" := VStr "Anna Bianchi"]>
  (<["email" := VStr "anna@example.com"]>
  (<["message" := VStr "Richiesta di offerta"]>
  (<["newsletter" := VStr "yes"]> ∅))).

(** The declared default of a field is of the declared type. *)
Definition default_ok (f : field) : bool :=
  match field_default f with
  | Required => true
  | Default v => check_type (field_type f) v
  | DefaultFactoryList => check_type (field_type f) (VList [])
  end.

Definition leaflet : doc :=
  <["title" := VStr "Brochure"]>
  (<["url" := VStr "https://example.com/brochure.pdf"]>
  (<["category" := VNone]> ∅)).

(** The record has [t] among its tags. *)
Definition has_tag (t : string) (p : doc) : bool :=
  match p !! "tags" with
  | Some (VList l) => existsb (is_VStr t) l
  | _ => false
  end.

(** What the [tag] parameter asks of a record. *)
Definition wanted_tag (tag : option string) (p : doc) : bool :=
  match truthy tag with
  | Some t => has_tag t p
  | None => true
  end.

(** ** ASCII text

    Case is folded on the letters A to Z ([lower_ascii]); the statements
    about the free-text search are made for text in which every character
    is an ASCII character. *)

Definition is_ascii_char (c : ascii) : bool := Nat.ltb (nat_of_ascii c) 128.

Fixpoint is_ascii (s : string) : bool :=
  match s with
  | EmptyString => true
  | String c rest => is_ascii_char c && is_ascii rest
  end.

(** The text of a field, or of the elements of a list field, is ASCII. *)
Definition ascii_field (v : option value) : bool :=
  match v with
  | Some (VStr s) => is_ascii s
  | Some (VList l) =>
      forallb (λ x, match x with VStr s => is_ascii s | _ => true end) l
  | _ => true
  end.

(** The searched fields of every stored product are ASCII text. *)
Definition ascii_products (d : Database) : Prop :=
  forallb (λ p, forallb (λ f, ascii_field (p !! f)) searched_fields)
          (collection d "product") = true.

(** ** Response models ([main.py], the route decorators)

    A route that declares a [response_model] does not send what its
    handler returns: the framework validates the returned value against
    the model and sends the validated record, that is the declared fields
    with the defaults filled in, and nothing else.  A value that does not
    validate makes the request fail.  With [Model | dict] the value is sent
    through the model when it validates against it and as it is
    otherwise. *)

Inductive response_model :=
| Unchecked                            (* no response_model *)
| Model (schema : list field)          (* response_model=Schema *)
| ListOf (schema : list field)         (* response_model=List[Schema] *)
| ModelOrDict (schema : list field).   (* response_model=Schema | dict *)

(** [ApplicationResponse] and [ContactResponse] of [main.py]. *)
Definition ApplicationResponse : list field := [ Field "status" TStr Required ].

Definition ContactResponse : list field := [ Field "status" TStr Required ].

Definition response_model_of (r : request) : response_model :=
  match r with
  | GET_root => Unchecked
  | GET_categories => ListOf Category
  | GET_products _ _ => ListOf Product
  | GET_product _ => Model Product
  | GET_sectors => ListOf Sector
  | GET_sector _ => Model Sector
  | GET_news _ => ListOf News
  | GET_documents _ _ _ => ListOf Document
  | GET_jobs _ => ListOf Job
  | POST_applications _ => Model ApplicationResponse
  | POST_contact _ => Model ContactResponse
  | GET_company => ModelOrDict CompanyProfile
  | GET_test => Unchecked
  end.

(** The value carries no date: its date fields are null or missing.  How
    a date is read and written back is outside the model. *)
Definition undated (schema : list field) (item : doc) : bool :=
  forallb (λ f,
    match field_type f with
    | TOptDate =>
        match item !! field_name f with
        | Some VNone | None => true
        | Some _ => false
        end
    | _ => true
    end) schema.

(** What is sent for a value through a model. *)
Definition dump (schema : list field) (item : doc) : failure + doc :=
  if undated schema item then
    match model_validate schema item with
    | inr rec => inr rec
    | inl _ => inl (Exception "ResponseValidationError")
    end
  else inl NotModelled.

Fixpoint dump_all (schema : list field) (items : list doc) : failure + list doc :=
  match items with
  | [] => inr []
  | item :: rest =>
      rec ← dump schema item;
      recs ← dump_all schema rest;
      inr (rec :: recs)
  end.

Definition serialize (m : response_model) (b : body) : failure + body :=
  match m, b with
  | Unchecked, _ => inr b
  | Model schema, Item item => Item <$> dump schema item
  | ListOf schema, Items items => Items <$> dump_all schema items
  | ModelOrDict schema, Item item =>
      if undated schema item then
        match model_validate schema item with
        | inr rec => inr (Item rec)
        | inl _ => inr (Item item)
        end
      else inl NotModelled
  | _, _ => inl (Exception "ResponseValidationError")
  end.

(** A request as the application answers it: the handler behind the route
    ([app]), then the response model of the route. *)
Definition serve (db : option Database) (environ : gmap string string)
    (r : request) : (failure + body) * option Database :=
  let '(res, db') := app db environ r in
  (b ← res; serialize (response_model_of r) b, db').

(** The record a model gives for a value that validates. *)
Definition dumped (schema : list field) (item : doc) : doc :=
  (validate_fields schema item).2.

(** The schema declares no date. *)
Definition no_date (schema : list field) : bool :=
  forallb (λ f, match field_type f with TOptDate => false | _ => true end) schema.

(** [GET /api/company] answers with the one-field object, as the
    specification words it. *)
Definition company_default_exact (d : Database) (environ : gmap string string)
    : Prop :=
  (serve (Some d) environ GET_company).1
  = inr (Item {[ "company_name" := VStr "Azienda Chimica" ]}).

(** The default profile as it is sent: every field of [CompanyProfile]. *)
Definition default_profile : doc :=
  <["company_name" := VStr "Azienda Chimica"]>
  (<["mission" := VNone]>
  (<["vision" := VNone]>
  (<["values" := VList []]>
  (<["history" := VNone]>
  (<["facilities" := VList []]>
  (<["locations" := VList []]>
  (<["quality_approach" := VNone]>
  (<["safety_approach" := VNone]>
  (<["innovation_approach" := VNone]> ∅))))))))).

(** * Properties *)

(** ** Strings and patterns *)

Section Patterns.

Lemma compile_meta_free y : meta_free y = true → compile y = Some (lits y).
Proof.
  induction y as [|c y IH]; simpl; [done|].
  intros [Hc Hy]%andb_prop. rewrite (IH Hy).
  assert (is_meta c = false) as Hm by (by destruct (is_meta c)).
  destruct (Ascii.eqb_spec c ".") as [->|_]; [done|]. by rewrite Hm.
Qed.

Lemma atom_lit_ci c x :
  atom_matches true (Lit c) x = true ↔ lower_ascii x = lower_ascii c.
Proof.
  simpl. destruct (Ascii.eqb_spec (lower_ascii c) (lower_ascii x)); split;
    congruence.
Qed.

Lemma match_here_lits y s :
  match_here true (lits y) s = true ↔ ∃ m b, s = m ++ b ∧ lower m = lower y.
Proof.
  revert s. induction y as [|c y IH]; intros s.
  - split; [intros _; by exists "", s|done].
  - destruct s as [|x s].
    + split; [done|]. intros (m & b & Hs & Hm).
      destruct m; simpl in *; discriminate.
    + change (match_here true (lits (String c y)) (String x s))
        with (atom_matches true (Lit c) x && match_here true (lits y) s).
      rewrite andb_true_iff, atom_lit_ci, IH. split.
      * intros (Hx & m & b & -> & Hm). exists (String x m), b.
        simpl. by rewrite Hx, Hm.
      * intros (m & b & Hs & Hm). destruct m as [|x' m]; [discriminate|].
        simpl in Hs, Hm. injection Hs as -> ->. injection Hm as Hx Hm.
        split; [done|]. by exists m, b.
Qed.

Lemma search_lits y s : search true (lits y) s = true ↔ occurs_ci y s.
Proof.
  induction s as [|x s IH].
  - simpl. rewrite orb_false_r, match_here_lits. split.
    + intros (m & b & Hs & Hm). by exists "", m, b.
    + intros (a & m & b & Hs & Hm). destruct a; [|discriminate].
      by exists m, b.
  - change (search true (lits y) (String x s))
      with (match_here true (lits y) (String x s) || search true (lits y) s).
    rewrite orb_true_iff, match_here_lits, IH. split.
    + intros [(m & b & Hs & Hm)|(a & m & b & Hs & Hm)].
      * by exists "", m, b.
      * exists (String x a), m, b. simpl. by rewrite Hs.
    + intros (a & m & b & Hs & Hm). destruct a as [|x' a].
      * left. by exists m, b.
      * right. simpl in Hs. injection Hs as -> ->. by exists a, m, b.
Qed.

Lemma regex_holds_lits y v :
  regex_holds true (lits y) v = true ↔ appears_in y v.
Proof.
  destruct v as [[| s | | |l]|]; simpl; try (split; [discriminate|done]).
  - apply search_lits.
  - rewrite existsb_exists. split.
    + intros ([] & Hin & Hx); try discriminate.
      eexists. split; [by apply list_elem_of_In|by apply search_lits].
    + intros (s & Hin & Hs). exists (VStr s).
      split; [by apply list_elem_of_In|by apply search_lits].
Qed.

Lemma occurs_ci_empty s : occurs_ci "" s.
Proof. by exists "", "", s. Qed.

End Patterns.

(** ** The store *)

Section Store.

Implicit Types (d : Database) (p : doc) (flt : filter_dict).

Lemma filter_true {A} (f : A → bool) (l : list A) :
  (∀ x, x ∈ l → f x = true) → List.filter f l = l.
Proof.
  induction l as [|x l IH]; intros Hf; simpl; [done|].
  rewrite Hf by apply list_elem_of_here.
  f_equal. apply IH. intros y Hy. apply Hf. by apply list_elem_of_further.
Qed.

Lemma filter_false {A} (f : A → bool) (l : list A) :
  (∀ x, x ∈ l → f x = false) → List.filter f l = [].
Proof.
  induction l as [|x l IH]; intros Hf; simpl; [done|].
  rewrite Hf by apply list_elem_of_here.
  apply IH. intros y Hy. apply Hf. by apply list_elem_of_further.
Qed.

Lemma filter_agree {A} (f g : A → bool) (l : list A) :
  (∀ x, x ∈ l → f x = g x) → List.filter f l = List.filter g l.
Proof.
  induction l as [|x l IH]; intros Hf; simpl; [done|].
  rewrite Hf by apply list_elem_of_here.
  rewrite IH; [done|]. intros y Hy. apply Hf. by apply list_elem_of_further.
Qed.

Lemma matches_empty p : matches ∅ p = true.
Proof. apply bool_decide_eq_true. apply map_Forall_empty. Qed.

Lemma matches_singleton k c p : matches {[ k := c ]} p = condition_holds p k c.
Proof.
  unfold matches. destruct (condition_holds p k c) eqn:Hc.
  - apply bool_decide_eq_true. by apply map_Forall_singleton.
  - apply bool_decide_eq_false. rewrite map_Forall_singleton. congruence.
Qed.

Lemma matches_entry flt k c p :
  flt !! k = Some c → matches flt p = true → condition_holds p k c = true.
Proof.
  intros Hk Hm. apply bool_decide_eq_true in Hm. by apply (Hm k c).
Qed.

Lemma filter_supported_empty : filter_supported ∅ = true.
Proof. apply bool_decide_eq_true. apply map_Forall_empty. Qed.

Lemma filter_supported_singleton k c :
  filter_supported {[ k := c ]} = condition_supported c.
Proof.
  unfold filter_supported. destruct (condition_supported c) eqn:Hc.
  - apply bool_decide_eq_true. by apply map_Forall_singleton.
  - apply bool_decide_eq_false. rewrite map_Forall_singleton. congruence.
Qed.

Lemma filter_supported_Eq flt k v :
  filter_supported flt = true → filter_supported (<[k := Eq v]> flt) = true.
Proof.
  intros H%bool_decide_eq_true. apply bool_decide_eq_true.
  intros k' c. rewrite lookup_insert. case_decide.
  - by intros [= <-].
  - apply H.
Qed.

(** What the accessor returns from an available store. *)
Lemma get_documents_available d collection_name flt limit :
  available d → filter_supported flt = true →
  get_documents (Some d) collection_name flt limit =
    inr (let found := List.filter (matches flt) (collection d collection_name) in
         match limit with Some n => take n found | None => found end).
Proof. unfold available, get_documents. by intros -> ->. Qed.

Lemma get_documents_all d collection_name :
  available d →
  get_documents (Some d) collection_name ∅ None = inr (collection d collection_name).
Proof.
  intros Hd. rewrite get_documents_available by (done || apply filter_supported_empty).
  simpl. f_equal. apply filter_true. intros. apply matches_empty.
Qed.

Lemma holds_elem d collection_name schema p :
  holds d collection_name schema → p ∈ collection d collection_name →
  conforms schema p = true.
Proof.
  unfold holds. rewrite forallb_forall. intros H Hp.
  apply H. by apply list_elem_of_In.
Qed.

(** A conforming record has a declared field of the declared type, or
    lacks it when the field has a default. *)
Lemma conforms_field schema p f :
  conforms schema p = true → f ∈ schema →
  match p !! field_name f with
  | Some v => check_type (field_type f) v = true
  | None => field_default f ≠ Required
  end.
Proof.
  unfold conforms. rewrite forallb_forall. intros H Hf.
  specialize (H f (proj1 (list_elem_of_In _ _) Hf)).
  destruct (p !! field_name f); [done|]. by destruct (field_default f).
Qed.

(** A required text field of a conforming record is a string. *)
Lemma conforms_required_str schema p k :
  conforms schema p = true → Field k TStr Required ∈ schema →
  ∃ s, p !! k = Some (VStr s).
Proof.
  intros Hc Hf. pose proof (conforms_field _ _ _ Hc Hf) as H. simpl in H.
  destruct (p !! k) as [[]|]; try done. by eexists.
Qed.

Lemma _serialize_list_no_id items it :
  it ∈ _serialize_list items → it !! "_id" = None.
Proof.
  unfold _serialize_list. rewrite list_elem_of_In, in_map_iff.
  intros (p & <- & _). apply lookup_delete_eq.
Qed.

End Store.

(** ** Query parameters *)

(** C10. On each list endpoint an empty-string query parameter behaves as
    an omitted one: no filter is added for it, so that
    [GET /api/products?category=] lists the products through the empty
    filter. *)
Theorem empty_parameter_is_omitted (db : option Database) :
  (∀ q, list_products db (Some "") q = list_products db None q) ∧
  (∀ category, list_products db category (Some "") = list_products db category None) ∧
  list_news db (Some "") = list_news db None ∧
  (∀ category language,
     list_documents db (Some "") category language
     = list_documents db None category language) ∧
  (∀ product language,
     list_documents db product (Some "") language
     = list_documents db product None language) ∧
  (∀ product category,
     list_documents db product category (Some "")
     = list_documents db product category None) ∧
  list_jobs db (Some "") = list_jobs db None ∧
  list_products db (Some "") None
  = (items ← get_documents db "product" ∅ None; inr (_serialize_list items)).
Proof. repeat split. Qed.

(** ** Lookups by slug and the company profile *)

Lemma take1_filter_find {A} (f : A → bool) (l : list A) :
  take 1 (List.filter f l) = match find f l with Some x => [x] | None => [] end.
Proof.
  induction l as [|x l IH]; simpl; [done|].
  destruct (f x); [done|]. apply IH.
Qed.

Lemma slug_filter d collection_name schema slug :
  holds d collection_name schema → Field "slug" TStr Required ∈ schema →
  List.filter (matches {[ "slug" := Eq slug ]}) (collection d collection_name)
  = List.filter (has_slug slug) (collection d collection_name).
Proof.
  intros Hh Hf. apply filter_agree. intros p Hp.
  rewrite matches_singleton. unfold has_slug. simpl.
  destruct (conforms_required_str schema p "slug") as [s ->]; [|done..].
  by eapply holds_elem.
Qed.

(** C4. On an available store of products, [GET /api/products/{slug}]
    raises 404 with detail "Product not found" when no stored product has
    the slug, and otherwise returns the first stored product that has it,
    without raising. *)
Theorem get_product_first_or_404 (d : Database) (slug : string)
    (Hd : available d) (Hp : holds d "product" Product) :
  match find (has_slug slug) (collection d "product") with
  | None =>
      get_product (Some d) slug = inl (HTTPException 404 "Product not found")
      ∧ status (get_product (Some d) slug) = Some 404%Z
      ∧ error_body (HTTPException 404 "Product not found")
        = Some {[ "detail" := VStr "Product not found" ]}
  | Some p => get_product (Some d) slug = inr (delete "_id" p)
  end.
Proof.
  unfold get_product.
  rewrite get_documents_available
    by (done || by rewrite filter_supported_singleton).
  cbn [mbind failure_bind].
  rewrite (slug_filter d "product" Product slug Hp)
    by (unfold Product; set_solver).
  rewrite take1_filter_find.
  by destruct (find (has_slug slug) (collection d "product")).
Qed.

Lemma get_product_first_or_404_witness :
  get_product (Some cms) "acido-solforico"
    = inl (HTTPException 404 "Product not found")
  ∧ get_product (Some cms) "solvente-x" = inr (delete "_id" solvent).
Proof.
  split.
  - exact (proj1 (get_product_first_or_404 cms "acido-solforico" eq_refl eq_refl)).
  - exact (get_product_first_or_404 cms "solvente-x" eq_refl eq_refl).
Defined.

(** With an available store whose company-profile collection is empty, the
    handler [get_company] returns the object with the single field
    [company_name]; and whatever the state of the store, the handler does
    not raise a 404. *)
Lemma get_company_default (d : Database)
    (Hd : available d) (Hempty : collection d "companyprofile" = []) :
  get_company (Some d) = inr {[ "company_name" := VStr "Azienda Chimica" ]}
  ∧ ∀ db, status (get_company db) ≠ Some 404%Z.
Proof.
  split.
  - unfold get_company. rewrite get_documents_available
      by (done || apply filter_supported_empty).
    by rewrite Hempty.
  - intros db. unfold get_company, get_documents.
    rewrite filter_supported_empty.
    destruct db as [d'|]; [|done]. destruct (fault d'); [done|].
    cbn [mbind failure_bind].
    by destruct (take 1 _).
Qed.

(** ** Filtered listings *)

Lemma truthy_nonempty x : x ≠ "" → truthy (Some x) = Some x.
Proof. intros Hx. simpl. by destruct (String.eqb_spec x ""). Qed.

Lemma cms_products : collection cms "product" = [formic_acid; solvent].
Proof. reflexivity. Qed.

Lemma cms_news : collection cms "news" = [fair].
Proof. reflexivity. Qed.

(** C3, as stated, fails for the empty string: [?category=] adds no filter,
    and products of every category are returned. *)
Lemma products_category_empty_counterexample : ¬ products_category_only cms "".
Proof.
  intros (items & Hl & Hall).
  assert (list_products (Some cms) (Some "") None
          = inr [delete "_id" formic_acid; delete "_id" solvent]) as Hrun
    by (reflexivity).
  rewrite Hrun in Hl. injection Hl as <-.
  destruct (Hall (delete "_id" formic_acid)) as (p & Hp & Hit & Hcat);
    [apply list_elem_of_here|].
  rewrite cms_products in Hp.
  apply list_elem_of_In in Hp. destruct Hp as [<-|[<-|[]]];
    discriminate.
Qed.

(** C3. For a non-empty string [x], on an available store of products,
    [GET /api/products?category=x] returns only stored products whose
    [category] field equals [x] exactly. *)
Theorem products_category_filter (d : Database) (x : string)
    (Hx : x ≠ "") (Hd : available d) (Hp : holds d "product" Product) :
  products_category_only d x.
Proof.
  unfold products_category_only, list_products.
  rewrite (truthy_nonempty x Hx). cbn [truthy]. rewrite insert_empty.
  rewrite get_documents_available
    by (done || by rewrite filter_supported_singleton).
  cbn [mbind failure_bind]. eexists. split; [done|].
  intros it. unfold _serialize_list. rewrite list_elem_of_In, in_map_iff.
  intros (p & <- & [Hin Hm]%filter_In). apply list_elem_of_In in Hin.
  exists p. split_and!; [done..|].
  rewrite matches_singleton in Hm. simpl in Hm.
  destruct (conforms_required_str Product p "category") as [s Hs];
    [by eapply holds_elem|unfold Product; set_solver|].
  rewrite Hs in Hm |- *. simpl in Hm.
  by apply String.eqb_eq in Hm as ->.
Qed.

Lemma products_category_filter_witness : products_category_only cms "acids".
Proof.
  apply (products_category_filter cms "acids");
    [discriminate | reflexivity | reflexivity].
Defined.

(** C5, as stated, fails for the empty string: [?tag=] adds no filter, and
    news without that tag are returned. *)
Lemma news_tag_empty_counterexample : ¬ news_tag_only cms "".
Proof.
  intros (items & Hl & Hall).
  assert (list_news (Some cms) (Some "") = inr [delete "_id" fair]) as Hrun
    by (reflexivity).
  rewrite Hrun in Hl. injection Hl as <-.
  destruct (Hall (delete "_id" fair)) as (n & l & Hn & Hit & Htags & Hmem);
    [apply list_elem_of_here|].
  rewrite cms_news in Hn. apply list_elem_of_In in Hn. destruct Hn as [<-|[]].
  injection Htags as <-.
  apply list_elem_of_In in Hmem. destruct Hmem as [Heq|[]]. discriminate.
Qed.

(** C5. For a non-empty string [t], on an available store of news,
    [GET /api/news?tag=t] returns only stored news whose [tags] list has
    [t] as a member. *)
Theorem news_tag_filter (d : Database) (t : string)
    (Ht : t ≠ "") (Hd : available d) (Hn : holds d "news" News) :
  news_tag_only d t.
Proof.
  unfold news_tag_only, list_news.
  rewrite (truthy_nonempty t Ht).
  rewrite get_documents_available
    by (done || by rewrite filter_supported_singleton).
  cbn [mbind failure_bind]. eexists. split; [done|].
  intros it. unfold _serialize_list. rewrite list_elem_of_In, in_map_iff.
  intros (n & <- & [Hin Hm]%filter_In). apply list_elem_of_In in Hin.
  rewrite matches_singleton in Hm. simpl in Hm.
  assert (conforms News n = true) as Hc by (by eapply holds_elem).
  pose proof (conforms_field News n (Field "tags" TOptListStr DefaultFactoryList) Hc
                ltac:(unfold News; set_solver)) as Hty.
  simpl in Hty.
  destruct (n !! "tags") as [[| s | | |l]|] eqn:Htags; try done.
  exists n, l. split_and!; [done..|].
  simpl in Hm. apply existsb_exists in Hm as (v & Hv & Hvt).
  destruct v; try done. simpl in Hvt. apply String.eqb_eq in Hvt as ->.
  by apply list_elem_of_In.
Qed.

Lemma news_tag_filter_witness : news_tag_only cms "eventi".
Proof.
  apply (news_tag_filter cms "eventi");
    [discriminate | reflexivity | reflexivity].
Defined.

(** *** Free-text search *)

Lemma q_clauses_fields q : q_clauses q = map (λ f, (f, q, "i")) searched_fields.
Proof. reflexivity. Qed.

Lemma clause_holds_lits p f y :
  meta_free y = true →
  clause_holds p (f, y, "i") = regex_holds true (lits y) (p !! f).
Proof. intros Hy. unfold clause_holds. by rewrite (compile_meta_free y Hy). Qed.

Lemma q_clauses_supported y :
  meta_free y = true → forallb clause_supported (q_clauses y) = true.
Proof.
  intros Hy. unfold q_clauses, clause_supported. simpl.
  rewrite (compile_meta_free y Hy). by rewrite bool_decide_eq_true_2.
Qed.

Lemma q_clauses_text_hit p y :
  meta_free y = true →
  existsb (clause_holds p) (q_clauses y) = true ↔ text_hit y p.
Proof.
  intros Hy. rewrite q_clauses_fields, existsb_exists. unfold text_hit. split.
  - intros (cl & (f & <- & Hf)%in_map_iff & Hcl).
    rewrite (clause_holds_lits p f y Hy) in Hcl.
    exists f. split; [by apply list_elem_of_In|by apply regex_holds_lits].
  - intros (f & Hf & Happ). exists (f, y, "i"). split.
    + apply in_map_iff. exists f. split; [done|by apply list_elem_of_In].
    + rewrite (clause_holds_lits p f y Hy). by apply regex_holds_lits.
Qed.

(** C2, as stated, fails for a string with a pattern metacharacter: the
    store reads [q] as a pattern, and [?q=.] returns products in which no
    dot appears. *)
Lemma products_q_dot_counterexample : ¬ products_q_exact cms ".".
Proof.
  assert (∀ p, p ∈ [formic_acid; solvent] → ¬ text_hit "." p) as Hno.
  { intros p Hp (f & Hf & Happ). apply regex_holds_lits in Happ.
    apply list_elem_of_In in Hp, Hf.
    destruct Hp as [<-|[<-|[]]]; destruct Hf as [<-|[<-|[<-|[<-|[]]]]];
      vm_compute in Happ; discriminate. }
  intros (sel & Hsel & Hl). rewrite cms_products in Hsel, Hl.
  assert (list_products (Some cms) None (Some ".")
          = inr [delete "_id" formic_acid; delete "_id" solvent]) as Hrun
    by (reflexivity).
  rewrite Hrun in Hl.
  assert (sel formic_acid = false) as H1.
  { destruct (sel formic_acid) eqn:H1; [|done]. exfalso.
    apply (Hno formic_acid); [apply list_elem_of_here|].
    apply Hsel; [apply list_elem_of_here|done]. }
  assert (sel solvent = false) as H2.
  { destruct (sel solvent) eqn:H2; [|done]. exfalso.
    apply (Hno solvent); [apply list_elem_of_further, list_elem_of_here|].
    apply Hsel; [apply list_elem_of_further, list_elem_of_here|done]. }
  unfold List.filter in Hl. rewrite H1, H2 in Hl.
  injection Hl as Hl. unfold _serialize_list in Hl. cbn [map] in Hl.
  discriminate Hl.
Qed.

(** C2. For an ASCII string [y] without pattern metacharacters, on an
    available store of products whose searched fields are ASCII text,
    [GET /api/products?q=y] returns exactly the stored products in which
    [y] appears, ignoring the case of letters, as a substring of [name],
    [summary], [description] or an element of [keywords]; they come in
    store order, without their internal identifier. *)
Theorem products_q_search (d : Database) (y : string)
    (Hy : meta_free y = true) (Hascii : is_ascii y = true)
    (Hd : available d) (Hp : holds d "product" Product)
    (Htext : ascii_products d) :
  products_q_exact d y.
Proof.
  unfold products_q_exact, list_products. cbn [truthy].
  destruct (String.eqb_spec y "") as [->|Hne].
  - exists (λ _, true). split.
    + intros p Hin. split; [intros _|done].
      destruct (conforms_required_str Product p "name") as [s Hs];
        [by eapply holds_elem|unfold Product; set_solver|].
      exists "name". split; [unfold searched_fields; set_solver|].
      rewrite Hs. apply occurs_ci_empty.
    + rewrite get_documents_all by done. cbn [mbind failure_bind].
      by rewrite filter_true.
  - rewrite insert_empty. fold (q_clauses y).
    exists (matches {[ "$or" := OrRegex (q_clauses y) ]}). split.
    + intros p _. rewrite matches_singleton. by apply q_clauses_text_hit.
    + rewrite get_documents_available; [done..|].
      rewrite filter_supported_singleton. by apply q_clauses_supported.
Qed.

Lemma products_q_search_witness : products_q_exact cms "FORMICO".
Proof.
  apply (products_q_search cms "FORMICO"); reflexivity.
Defined.

(** ** Validation *)

Section Validation.

Implicit Types (fs schema : list field) (f : field) (raw rec : doc).

Lemma validate_fields_lookup fs raw f v :
  NoDup (field_name <$> fs) → f ∈ fs → validate_field f raw = inr v →
  (validate_fields fs raw).2 !! field_name f = Some v.
Proof.
  induction fs as [|g fs IH]; intros Hnd Hf Hv; [by apply elem_of_nil in Hf|].
  apply NoDup_cons in Hnd as [Hg Hnd]. simpl.
  destruct (validate_fields fs raw) as [errs rec] eqn:Hrest. simpl in IH.
  apply elem_of_cons in Hf as [->|Hf].
  - rewrite Hv. simpl. apply lookup_insert_eq.
  - assert (field_name g ≠ field_name f) as Hne.
    { intros Heq. apply Hg. rewrite Heq. by apply list_elem_of_fmap_2. }
    destruct (validate_field g raw); simpl.
    + by apply IH.
    + rewrite lookup_insert_ne by done. by apply IH.
Qed.

Lemma validate_fields_error fs raw f e :
  f ∈ fs → validate_field f raw = inl e → e ∈ (validate_fields fs raw).1.
Proof.
  induction fs as [|g fs IH]; intros Hf He; [by apply elem_of_nil in Hf|].
  simpl. destruct (validate_fields fs raw) as [errs rec] eqn:Hrest.
  simpl in IH. apply elem_of_cons in Hf as [->|Hf].
  - rewrite He. simpl. apply list_elem_of_here.
  - destruct (validate_field g raw); simpl.
    + apply list_elem_of_further. by apply IH.
    + by apply IH.
Qed.

Lemma model_validate_inr schema raw rec :
  model_validate schema raw = inr rec → validate_fields schema raw = ([], rec).
Proof.
  unfold model_validate. destruct (validate_fields schema raw) as [[|e errs] r];
    [by intros [= ->]|done].
Qed.

Lemma model_validate_error schema raw f e :
  f ∈ schema → validate_field f raw = inl e →
  ∃ errors, model_validate schema raw = inl errors ∧ e ∈ errors.
Proof.
  intros Hf He. pose proof (validate_fields_error schema raw f e Hf He) as Hin.
  unfold model_validate.
  destruct (validate_fields schema raw) as [[|e' errs] r]; simpl in Hin.
  - by apply elem_of_nil in Hin.
  - by eexists.
Qed.

(** In each schema a field name is declared once. *)
Lemma schemas_names_distinct schema :
  schema ∈ schemas → NoDup (field_name <$> schema).
Proof.
  intros Hs. apply list_elem_of_In in Hs. simpl in Hs.
  repeat (destruct Hs as [<-|Hs];
          [apply (bool_decide_unpack _); by vm_compute|]).
  destruct Hs.
Qed.

Lemma schemas_list_defaults schema f :
  schema ∈ schemas → f ∈ schema → field_type f = TOptListStr →
  field_default f = DefaultFactoryList.
Proof.
  intros Hs Hf Hty.
  assert (forallb (forallb list_default_ok) schemas = true) as Hall
    by reflexivity.
  rewrite forallb_forall in Hall.
  specialize (Hall schema (proj1 (list_elem_of_In _ _) Hs)).
  rewrite forallb_forall in Hall.
  specialize (Hall f (proj1 (list_elem_of_In _ _) Hf)).
  unfold list_default_ok in Hall. rewrite Hty in Hall.
  by destruct (field_default f).
Qed.

End Validation.

(** C9. In every entity schema, when a field of type optional list is
    omitted from the input, validation gives it the empty list: the field
    is present in the validated record and holds [[]], not null. *)
Theorem omitted_list_field_is_empty (schema : list field) (f : field) (raw : doc)
    (Hs : schema ∈ schemas) (Hf : f ∈ schema)
    (Hty : field_type f = TOptListStr) (Homit : raw !! field_name f = None) :
  validate_field f raw = inr (VList [])
  ∧ ∀ rec, model_validate schema raw = inr rec →
           rec !! field_name f = Some (VList []).
Proof.
  assert (validate_field f raw = inr (VList [])) as Hv.
  { unfold validate_field. rewrite Homit.
    by rewrite (schemas_list_defaults schema f Hs Hf Hty). }
  split; [done|]. intros rec Hrec%model_validate_inr.
  pose proof (validate_fields_lookup schema raw f (VList [])
                (schemas_names_distinct schema Hs) Hf Hv) as Hl.
  by rewrite Hrec in Hl.
Qed.

Lemma omitted_list_field_is_empty_witness :
  ∃ rec, model_validate News press_release = inr rec
         ∧ rec !! "tags" = Some (VList []).
Proof.
  destruct (omitted_list_field_is_empty News
              (Field "tags" TOptListStr DefaultFactoryList) press_release)
    as [_ Hrec].
  - unfold schemas. set_solver.
  - unfold News. set_solver.
  - reflexivity.
  - reflexivity.
  - eexists. split; [reflexivity|]. apply Hrec. reflexivity.
Defined.

(** C7. [POST /api/applications] with a body that lacks [email] fails
    validation: the response is a 422, which reports the missing field, the
    handler does not run, and the store is left as it was. *)
Theorem application_without_email (db : option Database)
    (environ : gmap string string) (raw : doc) (Hraw : raw !! "email" = None) :
  ∃ errors,
    app db environ (POST_applications raw)
      = (inl (RequestValidationError errors), db)
    ∧ ("email", "missing") ∈ errors
    ∧ status_of (RequestValidationError errors) = Some 422%Z
    ∧ (400 ≤ 422 < 500)%Z.
Proof.
  destruct (model_validate_error Application raw (Field "email" TStr Required)
              ("email", "missing")) as (errors & Hv & Hin).
  - unfold Application. set_solver.
  - unfold validate_field. simpl. by rewrite Hraw.
  - exists errors. unfold app, with_payload. rewrite Hv. by repeat split.
Qed.

Lemma application_without_email_witness :
  ∃ errors,
    app (Some cms) ∅ (POST_applications anonymous_application)
      = (inl (RequestValidationError errors), Some cms)
    ∧ ("email", "missing") ∈ errors
    ∧ status_of (RequestValidationError errors) = Some 422%Z
    ∧ (400 ≤ 422 < 500)%Z.
Proof. apply (application_without_email (Some cms) ∅). reflexivity. Defined.

(** ** The diagnostic endpoint *)

Lemma str_take_length n s : (String.length (str_take n s) ≤ n)%nat.
Proof.
  revert s. induction n as [|n IH]; intros [|c s]; simpl; try lia.
  specialize (IH s). lia.
Qed.

Lemma expected_report_bound db : (length (expected_report db).2 ≤ 10)%nat.
Proof.
  unfold expected_report. destruct db as [d|]; [|simpl; lia].
  destruct (hasattr_name d); [simpl; lia|].
  destruct (list_collection_names d); simpl; [lia|].
  rewrite length_take. lia.
Qed.

(** The handler returns in every state of the store, and its response is
    the dict below. *)
Lemma test_database_response db environ :
  ∃ response,
    test_database db environ = inr response
    ∧ response !! "database" = Some (VStr (expected_report db).1)
    ∧ response !! "collections" = Some (VList (VStr <$> (expected_report db).2))
    ∧ response !! "_id" = None.
Proof.
  destruct db as [[nm [msg|] colls nid]|]; [destruct nm..|];
    (eexists; split; [reflexivity|]); by split_and!.
Qed.

(** C8. [GET /test] never raises: whether the store handle is unset, is
    connected, or raises when it is probed, the handler returns a response
    object; the outcome of the probe is rendered in its [database] field,
    with the text of an exception cut to at most 50 characters, and its
    [collections] field lists at most the first 10 collection names. *)
Theorem test_database_never_raises (db : option Database)
    (environ : gmap string string) :
  ∃ response,
    test_database db environ = inr response
    ∧ status (test_database db environ) = Some 200%Z
    ∧ response !! "database" = Some (VStr (expected_report db).1)
    ∧ response !! "collections" = Some (VList (VStr <$> (expected_report db).2))
    ∧ (length (expected_report db).2 ≤ 10)%nat
    ∧ ∀ e, (String.length (str_take 50 e) ≤ 50)%nat.
Proof.
  destruct (test_database_response db environ) as (response & Hrun & Hdb & Hcs & _).
  exists response. rewrite Hrun. split_and!; try done.
  - apply expected_report_bound.
  - intros e. apply str_take_length.
Qed.

(** ** Internal identifiers *)

Section InternalId.

Implicit Types (db : option Database) (items : list doc) (item : doc).

Lemma listed_no_id (m : failure + list doc) items it :
  (found ← m; inr (_serialize_list found)) = inr items →
  it ∈ items → it !! "_id" = None.
Proof.
  destruct m as [e|found]; [done|]. intros [= <-].
  apply _serialize_list_no_id.
Qed.

Lemma fetched_no_id (m : failure + list doc) (absent : failure + doc) item :
  (∀ it, absent = inr it → it !! "_id" = None) →
  (found ← m;
   match found with
   | [] => absent
   | first :: _ => inr (delete "_id" first)
   end) = inr item →
  item !! "_id" = None.
Proof.
  intros Habsent. destruct m as [e|[|first rest]]; [done|..].
  - apply Habsent.
  - intros [= <-]. apply lookup_delete_eq.
Qed.

Lemma submitted_no_id db collection_name payload r db' item :
  match create_document db collection_name payload with
  | (inl e, db1) => (inl e, db1)
  | (inr tt, db1) => (inr status_ok, db1)
  end = (r, db') →
  r = inr item → item !! "_id" = None.
Proof.
  destruct (create_document db collection_name payload) as [[e|[]] db1];
    intros [= <- <-]; [done|]. by intros [= <-].
Qed.

End InternalId.

(** A list endpoint: the items went through [_serialize_list]. *)
Ltac listing Hrun Hit :=
  match type of Hrun with
  | (Items <$> ?m, _) = _ =>
      let Hm := fresh "Hm" in
      destruct m as [?|?] eqn:Hm; [done|];
      injection Hrun as <- <-;
      exact (listed_no_id _ _ _ Hm Hit)
  end.

(** A single-item endpoint: the item lost its [_id], or is the default. *)
Ltac fetching Hrun Hit :=
  match type of Hrun with
  | (Item <$> ?m, _) = _ =>
      let Hm := fresh "Hm" in
      destruct m as [?|?] eqn:Hm; [done|];
      injection Hrun as <- <-;
      apply list_elem_of_In in Hit as [<-|[]];
      refine (fetched_no_id _ _ _ _ Hm); by intros ? [= <-]
  end.

(** A write endpoint: the body is the acknowledgement. *)
Ltac submitting Hrun Hit :=
  unfold with_payload in Hrun;
  destruct (model_validate _ _); [by injection Hrun|];
  match type of Hrun with
  | (let '(_, _) := ?m in _) = _ =>
      let Hm := fresh "Hm" in
      destruct m as [[?|?] ?] eqn:Hm; [done|];
      injection Hrun as <- <-;
      apply list_elem_of_In in Hit as [<-|[]];
      exact (submitted_no_id _ _ _ _ _ _ Hm eq_refl)
  end.

(** C1. Whatever the endpoint, no record in the body of a response has the
    store-internal identifier field [_id]. *)
Theorem no_internal_id (db : option Database) (environ : gmap string string)
    (r : request) (b : body) (db' : option Database)
    (Hrun : app db environ r = (inr b, db')) :
  ∀ it, it ∈ records b → it !! "_id" = None.
Proof.
  intros it Hit. destruct r; cbn [app] in Hrun.
  - (* GET / *)
    injection Hrun as <- <-. apply list_elem_of_In in Hit as [<-|[]]. done.
  - listing Hrun Hit.
  - listing Hrun Hit.
  - fetching Hrun Hit.
  - listing Hrun Hit.
  - fetching Hrun Hit.
  - listing Hrun Hit.
  - listing Hrun Hit.
  - listing Hrun Hit.
  - submitting Hrun Hit.
  - submitting Hrun Hit.
  - fetching Hrun Hit.
  - (* GET /test *)
    destruct (test_database_response db environ) as (response & Hr & _ & _ & Hid).
    rewrite Hr in Hrun. injection Hrun as <- <-.
    by apply list_elem_of_In in Hit as [<-|[]].
Qed.

Lemma no_internal_id_witness :
  app (Some cms) ∅ (GET_products None None)
    = (inr (Items [delete "_id" formic_acid; delete "_id" solvent]), Some cms)
  ∧ delete "_id" formic_acid !! "_id" = None.
Proof.
  split; [reflexivity|].
  apply (no_internal_id (Some cms) ∅ (GET_products None None)
           (Items [delete "_id" formic_acid; delete "_id" solvent]) (Some cms)
           eq_refl).
  apply list_elem_of_here.
Defined.

(** * Further properties of the handlers *)

(** ** Filters with several entries *)

Lemma matches_insert (flt : filter_dict) k c (p : doc) :
  flt !! k = None →
  matches (<[k := c]> flt) p = condition_holds p k c && matches flt p.
Proof.
  intros Hk. unfold matches.
  destruct (condition_holds p k c) eqn:Hc; simpl.
  - destruct (bool_decide (map_Forall _ flt)) eqn:Hm.
    + apply bool_decide_eq_true. apply bool_decide_eq_true in Hm.
      by apply map_Forall_insert_2.
    + apply bool_decide_eq_false. apply bool_decide_eq_false in Hm.
      intros H. apply Hm. by apply map_Forall_insert in H as [_ H].
  - apply bool_decide_eq_false. intros H.
    apply map_Forall_insert in H as [H _]; [congruence|done].
Qed.

(** On a field that is text or null, a string condition is equality. *)
Lemma eq_holds_text schema (p : doc) k v t dflt :
  conforms schema p = true → Field k t dflt ∈ schema → t ≠ TOptListStr →
  eq_holds v (p !! k) = field_is k v p.
Proof.
  intros Hc Hf Ht. pose proof (conforms_field _ _ _ Hc Hf) as H.
  simpl in H. unfold field_is.
  destruct (p !! k) as [[| | | |l]|]; try done. by destruct t.
Qed.

(** ** Lookups *)

(** X1. On an available store of sectors, [GET /api/sectors/{slug}] raises
    404 with detail "Sector not found" when no stored sector has the slug,
    and otherwise returns the first stored sector that has it, without its
    [_id]. *)
Theorem get_sector_first_or_404 (d : Database) (slug : string)
    (Hd : available d) (Hs : holds d "sector" Sector) :
  match find (has_slug slug) (collection d "sector") with
  | None =>
      get_sector (Some d) slug = inl (HTTPException 404 "Sector not found")
      ∧ status (get_sector (Some d) slug) = Some 404%Z
  | Some p => get_sector (Some d) slug = inr (delete "_id" p)
  end.
Proof.
  unfold get_sector.
  rewrite get_documents_available
    by (done || by rewrite filter_supported_singleton).
  cbn [mbind failure_bind].
  rewrite (slug_filter d "sector" Sector slug Hs)
    by (unfold Sector; set_solver).
  rewrite take1_filter_find.
  by destruct (find (has_slug slug) (collection d "sector")).
Qed.

Lemma get_sector_first_or_404_witness :
  get_sector (Some site) "tessile" = inl (HTTPException 404 "Sector not found")
  ∧ get_sector (Some site) "conceria" = inr (delete "_id" tannery).
Proof.
  split.
  - exact (proj1 (get_sector_first_or_404 site "tessile" eq_refl eq_refl)).
  - exact (get_sector_first_or_404 site "conceria" eq_refl eq_refl).
Defined.

(** X2. When the company-profile collection is not empty, on an available
    store, [GET /api/company] returns its first record without [_id];
    further records are ignored. *)
Theorem get_company_first (d : Database) (p : doc) (rest : list doc)
    (Hd : available d) (Hp : collection d "companyprofile" = p :: rest) :
  get_company (Some d) = inr (delete "_id" p).
Proof.
  unfold get_company.
  rewrite get_documents_available by (done || apply filter_supported_empty).
  rewrite Hp. cbn [mbind failure_bind].
  rewrite filter_true by (intros; apply matches_empty). done.
Qed.

Lemma get_company_first_witness :
  get_company (Some site) = inr (delete "_id" profile).
Proof. exact (get_company_first site profile [] eq_refl eq_refl). Defined.

(** An item that the handler [get_product] returns is one of the items
    that the handler [list_products] returns without parameters. *)
Lemma get_product_among_products (d : Database) (slug : string) (item : doc)
    (Hget : get_product (Some d) slug = inr item) :
  ∃ items, list_products (Some d) None None = inr items ∧ item ∈ items.
Proof.
  unfold get_product, list_products in *. cbn [truthy].
  unfold get_documents in *. destruct (fault d); [done|].
  rewrite filter_supported_empty.
  destruct (filter_supported {[ "slug" := Eq slug ]}); [|done].
  cbn [mbind failure_bind] in *.
  rewrite filter_true by (intros; apply matches_empty).
  eexists. split; [done|].
  rewrite take1_filter_find in Hget.
  destruct (find _ (collection d "product")) as [p|] eqn:Hf; [|done].
  injection Hget as <-. apply find_some in Hf as [Hin _].
  unfold _serialize_list. by apply list_elem_of_In, in_map.
Qed.

(** X4. On a store of products, the item that [GET /api/products/{slug}]
    returns has the requested slug in its [slug] field, and no [_id]. *)
Theorem get_product_has_slug (d : Database) (slug : string) (item : doc)
    (Hp : holds d "product" Product)
    (Hget : get_product (Some d) slug = inr item) :
  item !! "slug" = Some (VStr slug) ∧ item !! "_id" = None.
Proof.
  unfold get_product, get_documents in Hget.
  destruct (fault d); [done|].
  destruct (filter_supported {[ "slug" := Eq slug ]}); [|done].
  cbn [mbind failure_bind] in Hget.
  rewrite (slug_filter d "product" Product slug Hp) in Hget
    by (unfold Product; set_solver).
  rewrite take1_filter_find in Hget.
  destruct (find (has_slug slug) (collection d "product")) as [p|] eqn:Hf;
    [|done].
  injection Hget as <-. apply find_some in Hf as [_ Hs].
  split; [|apply lookup_delete_eq].
  rewrite lookup_delete_ne by done. unfold has_slug in Hs.
  destruct (p !! "slug") as [[]|]; try done.
  by apply String.eqb_eq in Hs as ->.
Qed.

Lemma get_product_has_slug_witness :
  delete "_id" solvent !! "slug" = Some (VStr "solvente-x")
  ∧ delete "_id" solvent !! "_id" = None.
Proof.
  exact (get_product_has_slug cms "solvente-x" (delete "_id" solvent)
           eq_refl eq_refl).
Defined.


(** ** Listings *)

(** Membership of a field in a schema, by inspection of its declarations. *)
Ltac declared :=
  apply list_elem_of_In; repeat (first [left; reflexivity | right]).

Lemma wanted_eq schema (p : doc) param k t dflt :
  conforms schema p = true → Field k t dflt ∈ schema → t ≠ TOptListStr →
  wanted param k p =
    match truthy param with
    | Some v => eq_holds v (p !! k)
    | None => true
    end.
Proof.
  intros Hc Hf Ht. unfold wanted. destruct (truthy param); [|done].
  symmetry. by eapply eq_holds_text.
Qed.

(** X5. On an available store of documents, [GET /api/documents] returns
    exactly the stored documents, in store order and without [_id], whose
    [product_slug], [category] and [language] equal the parameters
    [product], [category] and [language] that are given and not empty. *)
Theorem list_documents_filter (d : Database)
    (product category language : option string)
    (Hd : available d) (Hdoc : holds d "document" Document) :
  list_documents (Some d) product category language =
    inr (_serialize_list
           (List.filter
              (λ p, wanted product "product_slug" p
                    && wanted category "category" p
                    && wanted language "language" p)
              (collection d "document"))).
Proof.
  unfold list_documents.
  assert (∀ flt, filter_supported flt = true →
      (∀ p, p ∈ collection d "document" →
            matches flt p = wanted product "product_slug" p
                            && wanted category "category" p
                            && wanted language "language" p) →
      (items ← get_documents (Some d) "document" flt None;
       inr (_serialize_list items))
      = inr (_serialize_list
               (List.filter
                  (λ p, wanted product "product_slug" p
                        && wanted category "category" p
                        && wanted language "language" p)
                  (collection d "document")))) as Hgen.
  { intros flt Hsup Hm. rewrite get_documents_available by done.
    cbn [mbind failure_bind]. do 2 f_equal. by apply filter_agree. }
  apply Hgen.
  - destruct (truthy product), (truthy category), (truthy language);
      repeat apply filter_supported_Eq; apply filter_supported_empty.
  - intros p Hp.
    assert (conforms Document p = true) as Hc by (by eapply holds_elem).
    rewrite (wanted_eq Document p product "product_slug" TOptStr (Default VNone))
      by (exact Hc || declared || discriminate).
    rewrite (wanted_eq Document p category "category" TOptStr (Default VNone))
      by (exact Hc || declared || discriminate).
    rewrite (wanted_eq Document p language "language" TOptStr (Default (VStr "it")))
      by (exact Hc || declared || discriminate).
    destruct (truthy product), (truthy category), (truthy language);
      rewrite ?matches_insert, ?matches_empty
        by (by rewrite ?lookup_insert_ne, ?lookup_empty);
      cbn [condition_holds].
    all: repeat match goal with
         | |- context [eq_holds ?v ?x] => destruct (eq_holds v x)
         end; reflexivity.
Qed.

Lemma list_documents_filter_witness :
  list_documents (Some site) (Some "acido-formico") (Some "") (Some "it")
  = inr [delete "_id" datasheet].
Proof.
  rewrite (list_documents_filter site (Some "acido-formico") (Some "") (Some "it")
             eq_refl eq_refl).
  reflexivity.
Defined.

(** X6. On an available store of jobs, [GET /api/jobs?department=x] with a
    non-empty [x] returns exactly the stored jobs of that department, and
    without the parameter all of them. *)
Theorem list_jobs_filter (d : Database) (department : option string)
    (Hd : available d) (Hj : holds d "job" Job) :
  list_jobs (Some d) department =
    inr (_serialize_list
           (List.filter (wanted department "department") (collection d "job"))).
Proof.
  unfold list_jobs.
  rewrite get_documents_available; [|done|].
  - cbn [mbind failure_bind]. do 2 f_equal. apply filter_agree. intros p Hp.
    rewrite (wanted_eq Job p department "department" TOptStr (Default VNone))
      by (by eapply holds_elem || declared || discriminate).
    destruct (truthy department).
    + by rewrite matches_singleton.
    + apply matches_empty.
  - destruct (truthy department).
    + by rewrite filter_supported_singleton.
    + apply filter_supported_empty.
Qed.

Lemma list_jobs_filter_witness :
  list_jobs (Some site) (Some "R&D") = inr [delete "_id" chemist]
  ∧ list_jobs (Some site) (Some "Vendite") = inr [].
Proof.
  rewrite (list_jobs_filter site (Some "R&D") eq_refl eq_refl).
  rewrite (list_jobs_filter site (Some "Vendite") eq_refl eq_refl).
  split; reflexivity.
Defined.

Lemma filter_supported_insert (flt : filter_dict) k c :
  filter_supported flt = true → condition_supported c = true →
  filter_supported (<[k := c]> flt) = true.
Proof.
  intros H%bool_decide_eq_true Hc. apply bool_decide_eq_true.
  intros k' c'. rewrite lookup_insert. case_decide.
  - by intros [= <-].
  - apply H.
Qed.

(** X7. With both parameters, on an available store of products whose
    searched fields are ASCII text, [GET /api/products?category=x&q=y]
    returns exactly the stored products that have category [x] and in which
    [y] appears, ignoring the case of letters: the two filters are combined
    by conjunction ([x] not empty, [y] ASCII and without metacharacters). *)
Theorem list_products_both (d : Database) (x y : string)
    (Hx : x ≠ "") (Hy : meta_free y = true) (Hascii : is_ascii y = true)
    (Hd : available d) (Hp : holds d "product" Product)
    (Htext : ascii_products d) :
  ∃ sel : doc → bool,
    (∀ p, p ∈ collection d "product" →
          sel p = true ↔ p !! "category" = Some (VStr x) ∧ text_hit y p)
    ∧ list_products (Some d) (Some x) (Some y)
      = inr (_serialize_list (List.filter sel (collection d "product"))).
Proof.
  assert (∀ p, p ∈ collection d "product" →
               eq_holds x (p !! "category") = true
               ↔ p !! "category" = Some (VStr x)) as Hcat.
  { intros p Hin.
    destruct (conforms_required_str Product p "category") as [s Hs];
      [by eapply holds_elem|declared|].
    rewrite Hs. simpl. rewrite String.eqb_eq. split; congruence. }
  unfold list_products. rewrite (truthy_nonempty x Hx). cbn [truthy].
  destruct (String.eqb_spec y "") as [->|Hne].
  - exists (matches {[ "category" := Eq x ]}). split.
    + intros p Hin. rewrite matches_singleton. cbn [condition_holds].
      rewrite (Hcat p Hin). split; [|by intros [? _]]. intros Hc.
      split; [done|].
      destruct (conforms_required_str Product p "name") as [s Hs];
        [by eapply holds_elem|declared|].
      exists "name". split; [declared|]. rewrite Hs. apply occurs_ci_empty.
    + rewrite insert_empty.
      by rewrite get_documents_available
        by (done || by rewrite filter_supported_singleton).
  - fold (q_clauses y).
    exists (matches (<["$or" := OrRegex (q_clauses y)]>
                       (<["category" := Eq x]> ∅))). split.
    + intros p Hin. rewrite matches_insert by done.
      rewrite insert_empty, matches_singleton. cbn [condition_holds].
      rewrite andb_true_iff, (q_clauses_text_hit p y Hy), (Hcat p Hin).
      tauto.
    + rewrite get_documents_available; [done..|].
      apply filter_supported_insert.
      * rewrite insert_empty. by rewrite filter_supported_singleton.
      * by apply q_clauses_supported.
Qed.

Lemma list_products_both_witness :
  ∃ sel : doc → bool,
    (∀ p, p ∈ collection cms "product" →
          sel p = true ↔ p !! "category" = Some (VStr "acids") ∧ text_hit "ph" p)
    ∧ list_products (Some cms) (Some "acids") (Some "ph")
      = inr (_serialize_list (List.filter sel (collection cms "product"))).
Proof.
  apply (list_products_both cms "acids" "ph");
    [discriminate | reflexivity..].
Defined.

(** *** The search ignores the case of the query *)

Lemma lower_empty y : lower y = "" → y = "".
Proof. by destruct y. Qed.

Lemma regex_holds_same_fold y y' v :
  lower y = lower y' →
  regex_holds true (lits y) v = regex_holds true (lits y') v.
Proof.
  intros Hl.
  assert (∀ s, search true (lits y) s = search true (lits y') s) as Hs.
  { intros s. apply eq_true_iff_eq. rewrite !search_lits.
    unfold occurs_ci. by rewrite Hl. }
  destruct v as [[| s | | |l]|]; simpl; try done.
  induction l as [|[] l IH]; simpl; rewrite ?IH, ?Hs; done.
Qed.

(** X8. Two ASCII queries without metacharacters that differ only in the
    case of their letters give the same answer, whatever the category
    parameter and the state of the store. *)
Theorem products_q_ignores_case (db : option Database)
    (category : option string) (y y' : string)
    (Hy : meta_free y = true) (Hy' : meta_free y' = true)
    (Hascii : is_ascii y = true) (Hascii' : is_ascii y' = true)
    (Hfold : lower y = lower y') :
  list_products db category (Some y) = list_products db category (Some y').
Proof.
  unfold list_products. cbn [truthy].
  destruct (String.eqb_spec y "") as [->|Hne].
  { symmetry in Hfold. apply lower_empty in Hfold as ->. done. }
  destruct (String.eqb_spec y' "") as [->|Hne'].
  { by apply lower_empty in Hfold. }
  fold (q_clauses y) (q_clauses y').
  set (base := match truthy category with
               | Some c => <["category" := Eq c]> (∅ : filter_dict)
               | None => ∅
               end).
  assert (base !! "$or" = None) as Hor
    by (unfold base; by destruct (truthy category)).
  assert (filter_supported base = true) as Hbase.
  { unfold base. destruct (truthy category).
    - apply filter_supported_Eq, filter_supported_empty.
    - apply filter_supported_empty. }
  unfold get_documents. destruct db as [d|]; [|done].
  destruct (fault d); [done|].
  rewrite !filter_supported_insert by (done || by apply q_clauses_supported).
  cbn [mbind failure_bind]. do 2 f_equal. apply filter_agree. intros p _.
  rewrite !matches_insert by done. f_equal. cbn [condition_holds].
  unfold q_clauses. cbn [existsb].
  rewrite !clause_holds_lits by done.
  by rewrite !(regex_holds_same_fold y y').
Qed.

Lemma products_q_ignores_case_witness :
  list_products (Some cms) None (Some "Formico")
  = list_products (Some cms) None (Some "FORMICO").
Proof.
  apply (products_q_ignores_case (Some cms) None "Formico" "FORMICO");
    reflexivity.
Defined.


(** *** Filters only remove records *)

Lemma filter_sublist {A} (f : A → bool) (l : list A) :
  List.filter f l `sublist_of` l.
Proof.
  induction l as [|x l IH]; simpl; [constructor|].
  destruct (f x); by constructor.
Qed.

Lemma _serialize_list_sublist (l1 l2 : list doc) :
  l1 `sublist_of` l2 → _serialize_list l1 `sublist_of` _serialize_list l2.
Proof. unfold _serialize_list. induction 1; simpl; by constructor. Qed.

Lemma listed_sublist (d : Database) collection_name (flt : filter_dict) items :
  (found ← get_documents (Some d) collection_name flt None;
   inr (_serialize_list found)) = inr items →
  items `sublist_of` _serialize_list (collection d collection_name).
Proof.
  unfold get_documents. destruct (fault d); [done|].
  destruct (filter_supported flt); [|done].
  cbn [mbind failure_bind]. intros [= <-].
  apply _serialize_list_sublist, filter_sublist.
Qed.

(** X9. Whatever the parameters, what a list endpoint returns is a
    subsequence of the whole collection as it is listed without
    parameters: a filter drops records, it never adds, repeats or reorders
    them. *)
Theorem filters_only_remove (d : Database) :
  (∀ category q items,
     list_products (Some d) category q = inr items →
     items `sublist_of` _serialize_list (collection d "product"))
  ∧ (∀ tag items,
       list_news (Some d) tag = inr items →
       items `sublist_of` _serialize_list (collection d "news"))
  ∧ (∀ product category language items,
       list_documents (Some d) product category language = inr items →
       items `sublist_of` _serialize_list (collection d "document"))
  ∧ (∀ department items,
       list_jobs (Some d) department = inr items →
       items `sublist_of` _serialize_list (collection d "job")).
Proof. split_and!; intros; by eapply listed_sublist. Qed.

Lemma filters_only_remove_witness :
  [delete "_id" formic_acid]
    `sublist_of` _serialize_list (collection cms "product").
Proof.
  exact (proj1 (filters_only_remove cms) (Some "acids") (Some ".")
           [delete "_id" formic_acid] eq_refl).
Defined.

(** On an available store, the handler of a list endpoint called without
    parameters returns the whole collection, in store order, each record
    without its [_id]. *)
Lemma handlers_without_parameters (d : Database) (Hd : available d) :
  list_categories (Some d) = inr (_serialize_list (collection d "category"))
  ∧ list_products (Some d) None None
    = inr (_serialize_list (collection d "product"))
  ∧ list_sectors (Some d) = inr (_serialize_list (collection d "sector"))
  ∧ list_news (Some d) None = inr (_serialize_list (collection d "news"))
  ∧ list_documents (Some d) None None None
    = inr (_serialize_list (collection d "document"))
  ∧ list_jobs (Some d) None = inr (_serialize_list (collection d "job")).
Proof.
  unfold list_categories, list_products, list_sectors, list_news,
    list_documents, list_jobs. cbn [truthy].
  by rewrite !get_documents_all.
Qed.

(** X11. [_serialize_list] keeps the number and the order of the items and
    every field other than [_id]; applying it twice is applying it once,
    and it leaves items without [_id] as they are. *)
Theorem serialize_list_keeps_the_rest (items : list doc) :
  length (_serialize_list items) = length items
  ∧ (∀ i, _serialize_list items !! i = delete "_id" <$> items !! i)
  ∧ (∀ (p : doc) k, k ≠ "_id" → delete "_id" p !! k = p !! k)
  ∧ _serialize_list (_serialize_list items) = _serialize_list items
  ∧ ((∀ p, p ∈ items → p !! "_id" = None) → _serialize_list items = items).
Proof.
  unfold _serialize_list. split_and!.
  - apply length_map.
  - intros i. revert i. induction items as [|p items IH]; intros [|i]; simpl;
      auto.
  - intros p k Hk. by rewrite lookup_delete_ne.
  - rewrite map_map. apply map_ext. intros p. by rewrite delete_delete_eq.
  - intros Hno. induction items as [|p items IH]; simpl; [done|].
    rewrite delete_id by (apply Hno, list_elem_of_here).
    rewrite IH; [done|]. intros q Hq. by apply Hno, list_elem_of_further.
Qed.


Lemma serialize_list_keeps_the_rest_witness :
  _serialize_list [root; status_ok] = [root; status_ok].
Proof.
  apply (proj2 (proj2 (proj2 (proj2
           (serialize_list_keeps_the_rest [root; status_ok]))))).
  intros p Hp%list_elem_of_In. simpl in Hp. by destruct Hp as [<-|[<-|[]]].
Defined.

(** ** The diagnostic response *)

(** X12. The diagnostic response has exactly six keys.  [backend] is always
    "Running"; [database_url] and [database_name] tell only whether the
    environment variables [DATABASE_URL] and [DATABASE_NAME] are set to a
    non-empty value, so neither their values nor the name of the store,
    which the handler writes first, reach the response;
    [connection_status] is "Connected" exactly when the handle is set and
    reading its name did not raise. *)
Theorem test_database_fields (db : option Database)
    (environ : gmap string string) :
  ∃ response,
    test_database db environ = inr response
    ∧ dom response = report_keys
    ∧ response !! "backend" = Some (VStr "✅ Running")
    ∧ response !! "database_url" = Some (set_or_not environ "DATABASE_URL")
    ∧ response !! "database_name" = Some (set_or_not environ "DATABASE_NAME")
    ∧ response !! "connection_status"
      = Some (VStr match db with
                   | Some d =>
                       match hasattr_name d with
                       | inr _ => "Connected"
                       | inl _ => "Not Connected"
                       end
                   | None => "Not Connected"
                   end).
Proof.
  destruct db as [[nm [msg|] colls nid]|]; [destruct nm..|];
    (eexists; split; [reflexivity|]); by split_and!.
Qed.

(** ** The store across requests *)

Lemma accessor_down (db : option Database) collection_name flt limit :
  match db with Some d => fault d ≠ None | None => True end →
  ∃ msg, get_documents db collection_name flt limit = inl (Exception msg).
Proof.
  unfold get_documents. destruct db as [d|]; [|by eexists].
  intros Hf. destruct (fault d); [by eexists|done].
Qed.

(** X13. With the store handle unset, or the store raising, no handler
    catches the failure: every endpoint that reads the store answers with
    the exception, as a 500, and in particular a lookup by slug is not
    answered with 404. *)
Theorem store_down_is_500 (db : option Database)
    (environ : gmap string string) (r : request)
    (Hdown : match db with Some d => fault d ≠ None | None => True end)
    (Hr : uses_store r = true) (Hget : is_post r = false) :
  ∃ msg,
    app db environ r = (inl (Exception msg), db)
    ∧ status_of (Exception msg) = Some 500%Z.
Proof.
  destruct r; try done; cbn [app];
    unfold list_categories, list_products, get_product, list_sectors,
      get_sector, list_news, list_documents, list_jobs, get_company;
    cbv zeta;
    match goal with
    | |- context [get_documents db ?c ?flt ?lim] =>
        destruct (accessor_down db c flt lim Hdown) as [msg ->]
    end;
    by exists msg.
Qed.

Lemma store_down_is_500_witness :
  ∃ msg,
    app None ∅ (GET_product "acido-formico") = (inl (Exception msg), None)
    ∧ status_of (Exception msg) = Some 500%Z.
Proof.
  apply (store_down_is_500 None ∅ (GET_product "acido-formico")); done.
Defined.

(** X14. A request changes the store only if it is a POST that was
    accepted and acknowledged: every GET, every rejected body and every
    failed insert leaves the store as it was. *)
Theorem store_changes_only_on_accepted_post (db : option Database)
    (environ : gmap string string) (r : request)
    (res : failure + body) (db' : option Database)
    (Hrun : app db environ r = (res, db')) :
  db' = db ∨ (is_post r = true ∧ res = inr (Item status_ok)).
Proof.
  destruct r; cbn [app] in Hrun; try (left; by injection Hrun).
  all: unfold with_payload, submit_application, submit_contact,
         create_document in Hrun.
  all: destruct (model_validate _ _); [left; by injection Hrun|].
  all: destruct db as [d|]; [destruct (fault d)|];
         injection Hrun as <- <-; (by left) || (by right).
Qed.

Lemma store_changes_only_on_accepted_post_witness :
  (app (Some cms) ∅ (POST_applications anonymous_application)).2 = Some cms
  ∨ (is_post (POST_applications anonymous_application) = true
     ∧ (app (Some cms) ∅ (POST_applications anonymous_application)).1
       = inr (Item status_ok)).
Proof.
  apply (store_changes_only_on_accepted_post (Some cms) ∅
           (POST_applications anonymous_application)).
  by destruct (app (Some cms) ∅ (POST_applications anonymous_application)).
Defined.

Lemma collection_after_insert nm flt (colls : gmap string (list doc)) nid
    collection_name (l : list doc) c :
  collection
    {| name := nm; fault := flt;
       collections := <[collection_name := l]> colls;
       next_id := nid |} c
  = if decide (collection_name = c) then l else default [] (colls !! c).
Proof.
  unfold collection. cbn [collections]. rewrite lookup_insert.
  by case_decide.
Qed.

(** X15. [POST /api/contact] with a body that validates, on an available
    store, is acknowledged with [{"status": "ok"}] and appends one record
    to the collection [contactmessage]: the validated body with the
    identifier the store assigns.  No other collection changes, and the
    acknowledgement carries neither the body nor the identifier. *)
Theorem submit_contact_stores (d : Database) (environ : gmap string string)
    (raw payload : doc)
    (Hd : available d) (Hv : model_validate ContactMessage raw = inr payload) :
  ∃ d',
    app (Some d) environ (POST_contact raw)
      = (inr (Item {[ "status" := VStr "ok" ]}), Some d')
    ∧ collection d' "contactmessage"
      = (collection d "contactmessage"
           ++ [<["_id" := VObjectId (next_id d)]> payload])%list
    ∧ (∀ c, c ≠ "contactmessage" → collection d' c = collection d c).
Proof.
  cbn [app]. unfold with_payload, submit_contact, create_document.
  rewrite Hv, Hd. eexists. split; [reflexivity|].
  split.
  - rewrite collection_after_insert. by rewrite decide_True.
  - intros c Hc. rewrite collection_after_insert. by rewrite decide_False.
Qed.

(** X16. [POST /api/applications] with a body that validates, on an
    available store, is acknowledged with [{"status": "ok"}] and appends
    one record to the collection [application]: the validated body with the
    identifier the store assigns.  No other collection changes. *)
Theorem submit_application_stores (d : Database) (environ : gmap string string)
    (raw payload : doc)
    (Hd : available d) (Hv : model_validate Application raw = inr payload) :
  ∃ d',
    app (Some d) environ (POST_applications raw)
      = (inr (Item {[ "status" := VStr "ok" ]}), Some d')
    ∧ collection d' "application"
      = (collection d "application"
           ++ [<["_id" := VObjectId (next_id d)]> payload])%list
    ∧ (∀ c, c ≠ "application" → collection d' c = collection d c).
Proof.
  cbn [app]. unfold with_payload, submit_application, create_document.
  rewrite Hv, Hd. eexists. split; [reflexivity|].
  split.
  - rewrite collection_after_insert. by rewrite decide_True.
  - intros c Hc. rewrite collection_after_insert. by rewrite decide_False.
Qed.

(** X17. [POST /api/contact] with a body that lacks [name], [email] or
    [message] is rejected with a 422 that reports the missing field, and
    the store is left as it was. *)
Theorem contact_requires_fields (db : option Database)
    (environ : gmap string string) (raw : doc) (k : string)
    (Hk : k ∈ ["name"; "email"; "message"]) (Hraw : raw !! k = None) :
  ∃ errors,
    app db environ (POST_contact raw)
      = (inl (RequestValidationError errors), db)
    ∧ (k, "missing") ∈ errors
    ∧ status_of (RequestValidationError errors) = Some 422%Z.
Proof.
  destruct (model_validate_error ContactMessage raw (Field k TStr Required)
              (k, "missing")) as (errors & Hv & Hin).
  - apply list_elem_of_In in Hk. simpl in Hk.
    destruct Hk as [<-|[<-|[<-|[]]]]; declared.
  - unfold validate_field. simpl. by rewrite Hraw.
  - exists errors. cbn [app]. unfold with_payload. by rewrite Hv.
Qed.


Lemma submit_contact_stores_witness :
  ∃ d',
    app (Some site) ∅ (POST_contact enquiry)
      = (inr (Item {[ "status" := VStr "ok" ]}), Some d')
    ∧ length (collection d' "contactmessage") = 1
    ∧ collection d' "product" = [formic_acid; solvent].
Proof.
  destruct (submit_contact_stores site ∅ enquiry _ eq_refl eq_refl)
    as (d' & Hrun & Hnew & Hold).
  exists d'. split; [exact Hrun|]. split.
  - by rewrite Hnew.
  - by rewrite Hold.
Defined.

Lemma submit_application_stores_witness :
  ∃ d',
    app (Some site) ∅ (POST_applications enquiry)
      = (inr (Item {[ "status" := VStr "ok" ]}), Some d')
    ∧ length (collection d' "application") = 1
    ∧ collection d' "product" = [formic_acid; solvent].
Proof.
  destruct (submit_application_stores site ∅ enquiry _ eq_refl eq_refl)
    as (d' & Hrun & Hnew & Hold).
  exists d'. split; [exact Hrun|]. split.
  - by rewrite Hnew.
  - by rewrite Hold.
Defined.

Lemma contact_requires_fields_witness :
  ∃ errors,
    app (Some cms) ∅ (POST_contact anonymous_application)
      = (inl (RequestValidationError errors), Some cms)
    ∧ ("email", "missing") ∈ errors
    ∧ status_of (RequestValidationError errors) = Some 422%Z.
Proof.
  apply (contact_requires_fields (Some cms) ∅ anonymous_application "email").
  - apply list_elem_of_further, list_elem_of_here.
  - reflexivity.
Defined.

(** ** Validated records *)

Lemma validate_fields_ok fs raw rec f :
  validate_fields fs raw = ([], rec) → f ∈ fs →
  ∃ v, validate_field f raw = inr v.
Proof.
  intros Hv Hf. destruct (validate_field f raw) as [e|v] eqn:He; [|by eexists].
  pose proof (validate_fields_error fs raw f e Hf He) as Hin.
  rewrite Hv in Hin. by apply elem_of_nil in Hin.
Qed.

Lemma validate_fields_dom fs raw rec :
  validate_fields fs raw = ([], rec) →
  dom rec = list_to_set (field_name <$> fs).
Proof.
  revert rec. induction fs as [|f fs IH]; intros rec; simpl.
  - intros [= <-]. apply dom_empty_L.
  - destruct (validate_fields fs raw) as [errs rec'].
    destruct (validate_field f raw); [done|]. intros [= -> <-].
    rewrite dom_insert_L. by rewrite (IH rec').
Qed.

Lemma validate_fields_ext fs raw1 raw2 :
  (∀ f, f ∈ fs → validate_field f raw1 = validate_field f raw2) →
  validate_fields fs raw1 = validate_fields fs raw2.
Proof.
  induction fs as [|f fs IH]; intros Hext; simpl; [done|].
  rewrite IH by (intros g Hg; by apply Hext, list_elem_of_further).
  by rewrite Hext by apply list_elem_of_here.
Qed.

Lemma validate_field_typed f raw v :
  default_ok f = true → validate_field f raw = inr v →
  check_type (field_type f) v = true.
Proof.
  unfold validate_field, default_ok. intros Hd.
  destruct (raw !! field_name f) as [x|].
  - destruct (check_type (field_type f) x) eqn:Hx; [by intros [= <-]|done].
  - destruct (field_default f); [done|by intros [= <-]..].
Qed.

Lemma schemas_defaults_typed schema f :
  schema ∈ schemas → f ∈ schema → default_ok f = true.
Proof.
  intros Hs Hf.
  assert (forallb (forallb default_ok) schemas = true) as Hall by reflexivity.
  rewrite forallb_forall in Hall.
  specialize (Hall schema (proj1 (list_elem_of_In _ _) Hs)).
  rewrite forallb_forall in Hall.
  exact (Hall f (proj1 (list_elem_of_In _ _) Hf)).
Qed.

(** The field of a validated record: the value validation gave it, which
    has the declared type. *)
Lemma validated_lookup schema raw rec f :
  schema ∈ schemas → model_validate schema raw = inr rec → f ∈ schema →
  ∃ v, validate_field f raw = inr v
       ∧ rec !! field_name f = Some v
       ∧ check_type (field_type f) v = true.
Proof.
  intros Hs Hv%model_validate_inr Hf.
  destruct (validate_fields_ok schema raw rec f Hv Hf) as [v Hfv].
  exists v. split_and!; [done| |].
  - pose proof (validate_fields_lookup schema raw f v
                  (schemas_names_distinct schema Hs) Hf Hfv) as Hl.
    by rewrite Hv in Hl.
  - eapply validate_field_typed; [by eapply schemas_defaults_typed|done].
Qed.

(** X18. In every entity schema that declares no date, a record that
    validation accepts has exactly the declared fields (keys of the input
    that the schema does not declare are dropped), each of the declared
    type; validating the record again accepts it and returns it
    unchanged. *)
Theorem validated_record_shape (schema : list field) (raw rec : doc)
    (Hs : schema ∈ schemas) (Hnd : no_date schema = true)
    (Hv : model_validate schema raw = inr rec) :
  dom rec = list_to_set (field_names schema)
  ∧ conforms schema rec = true
  ∧ model_validate schema rec = inr rec.
Proof.
  split_and!.
  - apply (validate_fields_dom schema raw). by apply model_validate_inr.
  - unfold conforms. apply forallb_forall. intros f Hf%list_elem_of_In.
    destruct (validated_lookup schema raw rec f Hs Hv Hf) as (v & _ & -> & Ht).
    done.
  - unfold model_validate.
    rewrite (validate_fields_ext schema rec raw).
    + by rewrite (model_validate_inr schema raw rec Hv).
    + intros f Hf.
      destruct (validated_lookup schema raw rec f Hs Hv Hf)
        as (v & Hfv & Hl & Ht).
      rewrite Hfv. unfold validate_field. by rewrite Hl, Ht.
Qed.

Lemma validated_record_shape_witness :
  ∃ rec,
    model_validate ContactMessage enquiry = inr rec
    ∧ rec !! "newsletter" = None
    ∧ model_validate ContactMessage rec = inr rec.
Proof.
  eexists. split; [reflexivity|].
  destruct (validated_record_shape ContactMessage enquiry _
              ltac:(declared) eq_refl eq_refl) as (Hdom & _ & Hagain).
  split; [|exact Hagain].
  apply not_elem_of_dom. rewrite Hdom. by vm_compute.
Defined.

(** X19. In every entity schema that declares no date, a validated record
    keeps a declared field of the input as it is given, so an explicit null
    stays null; a field that the input omits takes its declared default,
    for instance "it" for the language of a document. *)
Theorem validated_field_value (schema : list field) (f : field)
    (raw rec : doc)
    (Hs : schema ∈ schemas) (Hnd : no_date schema = true) (Hf : f ∈ schema)
    (Hv : model_validate schema raw = inr rec) :
  (∀ v, raw !! field_name f = Some v → rec !! field_name f = Some v)
  ∧ (raw !! field_name f = None →
     ∀ v, field_default f = Default v → rec !! field_name f = Some v).
Proof.
  destruct (validated_lookup schema raw rec f Hs Hv Hf) as (v & Hfv & Hl & _).
  unfold validate_field in Hfv. split.
  - intros x Hx. rewrite Hx in Hfv.
    destruct (check_type (field_type f) x); [|done]. by injection Hfv as <-.
  - intros Hnone x Hx. rewrite Hnone, Hx in Hfv. by injection Hfv as <-.
Qed.

Lemma validated_field_value_witness :
  ∃ rec,
    model_validate Document leaflet = inr rec
    ∧ rec !! "category" = Some VNone
    ∧ rec !! "language" = Some (VStr "it").
Proof.
  eexists. split; [reflexivity|]. split.
  - apply (proj1 (validated_field_value Document
                    (Field "category" TOptStr (Default VNone)) leaflet _
                    ltac:(declared) eq_refl ltac:(declared) eq_refl)).
    reflexivity.
  - apply (proj2 (validated_field_value Document
                    (Field "language" TOptStr (Default (VStr "it"))) leaflet _
                    ltac:(declared) eq_refl ltac:(declared) eq_refl));
      reflexivity.
Defined.


(** ** Exact answers of the filtered listings *)

(** X20. On an available store of news, [GET /api/news] returns exactly the
    stored news, in store order and without [_id], that have the given
    tag among their tags; a record whose tags are null or missing is
    returned only when no tag is asked for. *)
Theorem list_news_exact (d : Database) (tag : option string)
    (Hd : available d) (Hn : holds d "news" News) :
  list_news (Some d) tag =
    inr (_serialize_list (List.filter (wanted_tag tag) (collection d "news"))).
Proof.
  unfold list_news.
  rewrite get_documents_available; [|done|].
  - cbn [mbind failure_bind]. do 2 f_equal. apply filter_agree. intros p Hp.
    unfold wanted_tag. destruct (truthy tag) as [t|]; [|apply matches_empty].
    rewrite matches_singleton. cbn [condition_holds]. unfold has_tag.
    assert (conforms News p = true) as Hc by (by eapply holds_elem).
    pose proof (conforms_field News p
                  (Field "tags" TOptListStr DefaultFactoryList) Hc
                  ltac:(declared)) as Hty.
    cbn [field_name field_type] in Hty.
    by destruct (p !! "tags") as [[]|].
  - destruct (truthy tag).
    + by rewrite filter_supported_singleton.
    + apply filter_supported_empty.
Qed.

Lemma list_news_exact_witness :
  list_news (Some cms) (Some "eventi") = inr [delete "_id" fair]
  ∧ list_news (Some cms) (Some "Eventi") = inr [].
Proof.
  rewrite (list_news_exact cms (Some "eventi") eq_refl eq_refl).
  rewrite (list_news_exact cms (Some "Eventi") eq_refl eq_refl).
  split; reflexivity.
Defined.

(** X21. On an available store of products, [GET /api/products] with only
    the [category] parameter returns exactly the stored products of that
    category, none missing, in store order and without [_id]. *)
Theorem list_products_category_exact (d : Database) (category : option string)
    (Hd : available d) (Hp : holds d "product" Product) :
  list_products (Some d) category None =
    inr (_serialize_list
           (List.filter (wanted category "category") (collection d "product"))).
Proof.
  unfold list_products. cbn [truthy].
  rewrite get_documents_available; [|done|].
  - cbn [mbind failure_bind]. do 2 f_equal. apply filter_agree. intros p Hin.
    rewrite (wanted_eq Product p category "category" TStr Required)
      by (by eapply holds_elem || declared || discriminate).
    destruct (truthy category); [|apply matches_empty].
    rewrite insert_empty. by rewrite matches_singleton.
  - destruct (truthy category).
    + apply filter_supported_Eq, filter_supported_empty.
    + apply filter_supported_empty.
Qed.

Lemma list_products_category_exact_witness :
  list_products (Some cms) (Some "solvents") None = inr [delete "_id" solvent]
  ∧ list_products (Some cms) (Some "Solvents") None = inr [].
Proof.
  rewrite (list_products_category_exact cms (Some "solvents") eq_refl eq_refl).
  rewrite (list_products_category_exact cms (Some "Solvents") eq_refl eq_refl).
  split; reflexivity.
Defined.

(** ** Submissions are never read back *)

Lemma get_documents_after_insert nm flt0 (colls : gmap string (list doc)) nid nid'
    written (l : list doc) c flt limit :
  c ≠ written →
  get_documents
    (Some {| name := nm; fault := flt0;
             collections := <[written := l]> colls; next_id := nid' |})
    c flt limit
  = get_documents
      (Some {| name := nm; fault := flt0; collections := colls; next_id := nid |})
      c flt limit.
Proof.
  intros Hc. unfold get_documents. cbn [fault].
  rewrite collection_after_insert. by rewrite decide_False.
Qed.

(** X22. The collections that the POST endpoints write are read by no
    endpoint: after a submission, accepted or not, every GET endpoint
    other than the diagnostic answers as it did before. *)
Theorem submissions_are_write_only (db db' : option Database)
    (environ : gmap string string) (post r : request) (res : failure + body)
    (Hpost : is_post post = true)
    (Hrun : app db environ post = (res, db'))
    (Hr : uses_store r = true) (Hget : is_post r = false) :
  (app db' environ r).1 = (app db environ r).1.
Proof.
  assert (db' = db ∨
          ∃ nm flt0 colls nid written l,
            written ∈ ["application"; "contactmessage"]
            ∧ db = Some {| name := nm; fault := flt0; collections := colls;
                           next_id := nid |}
            ∧ db' = Some {| name := nm; fault := flt0;
                            collections := <[written := l]> colls;
                            next_id := N.succ nid |}) as [->|Hw].
  { destruct post; try done; cbn [app] in Hrun.
    all: unfold with_payload, submit_application, submit_contact,
           create_document in Hrun.
    all: destruct (model_validate _ _); [left; by injection Hrun|].
    all: destruct db as [[nm flt0 colls nid]|]; [|left; by injection Hrun].
    all: cbn [fault name next_id collections] in Hrun.
    all: destruct flt0; [left; by injection Hrun|].
    all: right; injection Hrun as <- <-; eexists _, _, _, _, _, _.
    all: split; [|split; reflexivity]; declared. }
  { done. }
  destruct Hw as (nm & flt0 & colls & nid & written & l & Hw & -> & ->).
  assert (∀ c, c ∉ ["application"; "contactmessage"] → c ≠ written) as Hne
    by (intros c Hc ->; done).
  destruct r; try done; cbn [app fst];
    unfold list_categories, list_products, get_product, list_sectors,
      get_sector, list_news, list_documents, list_jobs, get_company;
    cbv zeta;
    rewrite (get_documents_after_insert nm flt0 colls nid);
    (done || (apply Hne; intros Hc%list_elem_of_In; simpl in Hc;
              by destruct Hc as [|[|[]]])).
Qed.

Lemma submissions_are_write_only_witness :
  (app (app (Some site) ∅ (POST_contact enquiry)).2 ∅ GET_sectors).1
  = (app (Some site) ∅ GET_sectors).1.
Proof.
  apply (submissions_are_write_only (Some site) _ ∅ (POST_contact enquiry)
           GET_sectors (app (Some site) ∅ (POST_contact enquiry)).1);
    [reflexivity| |reflexivity|reflexivity].
  by destruct (app (Some site) ∅ (POST_contact enquiry)).
Defined.

(** * Responses through the response models *)

Lemma undated_no_date schema (item : doc) :
  no_date schema = true → undated schema item = true.
Proof.
  unfold no_date, undated. rewrite !forallb_forall. intros H f Hf.
  specialize (H f Hf). by destruct (field_type f).
Qed.

(** No schema declares a field named [_id]. *)
Lemma schemas_no_id schema f :
  schema ∈ schemas → f ∈ schema → field_name f ≠ "_id".
Proof.
  intros Hs Hf.
  assert (forallb (forallb (λ f, negb (String.eqb (field_name f) "_id")))
            schemas = true) as Hall by reflexivity.
  rewrite forallb_forall in Hall.
  specialize (Hall schema (proj1 (list_elem_of_In _ _) Hs)).
  rewrite forallb_forall in Hall.
  specialize (Hall f (proj1 (list_elem_of_In _ _) Hf)).
  apply negb_true_iff, String.eqb_neq in Hall. done.
Qed.

Lemma validate_fields_no_errors fs raw :
  (∀ f, f ∈ fs → ∃ v, validate_field f raw = inr v) →
  (validate_fields fs raw).1 = [].
Proof.
  induction fs as [|f fs IH]; intros Hok; simpl; [done|].
  specialize (IH (λ g Hg, Hok g (list_elem_of_further _ _ _ Hg))).
  destruct (validate_fields fs raw) as [errs rec]. simpl in IH. subst errs.
  by destruct (Hok f (list_elem_of_here _ _)) as [v ->].
Qed.

(** A stored record that conforms to a schema goes through the model of
    the schema once its [_id] is removed. *)
Lemma conforming_validates schema (p : doc) :
  schema ∈ schemas → conforms schema p = true →
  model_validate schema (delete "_id" p) = inr (dumped schema (delete "_id" p)).
Proof.
  intros Hs Hc. unfold model_validate, dumped.
  pose proof (validate_fields_no_errors schema (delete "_id" p)) as Hno.
  destruct (validate_fields schema (delete "_id" p)) as [errs rec].
  simpl in *. rewrite Hno; [done|].
  intros f Hf. pose proof (conforms_field schema p f Hc Hf) as Hty.
  unfold validate_field.
  rewrite lookup_delete_ne by (symmetry; by eapply schemas_no_id).
  destruct (p !! field_name f).
  - rewrite Hty. by eexists.
  - destruct (field_default f); [done|by eexists..].
Qed.

Lemma conforming_dump schema (p : doc) :
  schema ∈ schemas → no_date schema = true → conforms schema p = true →
  dump schema (delete "_id" p) = inr (dumped schema (delete "_id" p)).
Proof.
  intros Hs Hnd Hc. unfold dump.
  rewrite (undated_no_date schema _ Hnd).
  by rewrite (conforming_validates schema p Hs Hc).
Qed.

Lemma conforming_dump_all schema (stored : list doc) :
  schema ∈ schemas → no_date schema = true →
  (∀ p, p ∈ stored → conforms schema p = true) →
  dump_all schema (_serialize_list stored)
  = inr (dumped schema <$> _serialize_list stored).
Proof.
  intros Hs Hnd. unfold _serialize_list.
  induction stored as [|p stored IH]; intros Hc; [done|].
  cbn [map dump_all].
  rewrite (conforming_dump schema p Hs Hnd)
    by (apply Hc, list_elem_of_here).
  cbn [mbind failure_bind].
  specialize (IH (λ q Hq, Hc q (list_elem_of_further _ _ _ Hq))).
  by rewrite IH.
Qed.

Lemma holds_all d collection_name schema :
  holds d collection_name schema →
  ∀ p, p ∈ collection d collection_name → conforms schema p = true.
Proof. intros Hh p Hp. by eapply holds_elem. Qed.

(** C6, as stated, fails: the route declares the response model
    [CompanyProfile | dict], the one-field object that the handler returns
    validates as a [CompanyProfile], and what is sent has every field of
    the profile. *)
Lemma company_default_counterexample : ¬ company_default_exact cms ∅.
Proof.
  unfold company_default_exact.
  assert ((serve (Some cms) ∅ GET_company).1 = inr (Item default_profile))
    as -> by reflexivity.
  intros Heq. discriminate Heq.
Qed.

(** C6. With an available store whose company-profile collection is empty,
    the handler of [GET /api/company] returns the object with the single
    field [company_name] set to "Azienda Chimica", and the response sent is
    the default profile: that company name with every other field of
    [CompanyProfile] at its default, null or the empty list.  Whatever the
    state of the store, the response is never a 404. *)
Theorem company_default_profile (d : Database) (environ : gmap string string)
    (Hd : available d) (Hempty : collection d "companyprofile" = []) :
  get_company (Some d) = inr {[ "company_name" := VStr "Azienda Chimica" ]}
  ∧ serve (Some d) environ GET_company = (inr (Item default_profile), Some d)
  ∧ dom default_profile = list_to_set (field_names CompanyProfile)
  ∧ ∀ db, status (serve db environ GET_company).1 ≠ Some 404%Z.
Proof.
  destruct (get_company_default d Hd Hempty) as [Hget Hnever].
  split_and!; [done| |reflexivity|].
  - unfold serve. cbn [app]. by rewrite Hget.
  - intros db. unfold serve. cbn [app fst].
    specialize (Hnever db).
    destruct (get_company db) as [f|item]; [done|].
    cbn [fmap failure_fmap mbind failure_bind response_model_of serialize].
    destruct (undated CompanyProfile item); [|done].
    by destruct (model_validate CompanyProfile item).
Qed.

Lemma company_default_profile_witness :
  serve (Some cms) ∅ GET_company = (inr (Item default_profile), Some cms).
Proof.
  exact (proj1 (proj2 (company_default_profile cms ∅ eq_refl eq_refl))).
Defined.

Lemma get_product_stored (d : Database) (slug : string) (item : doc) :
  get_product (Some d) slug = inr item →
  available d ∧ item ∈ _serialize_list (collection d "product").
Proof.
  intros Hget.
  assert (available d) as Hd.
  { unfold get_product, get_documents in Hget. unfold available.
    by destruct (fault d). }
  split; [done|].
  destruct (get_product_among_products d slug item Hget) as (items & Hl & Hin).
  destruct (handlers_without_parameters d Hd) as (_ & Hall & _).
  rewrite Hall in Hl. by injection Hl as <-.
Qed.

(** X3. On a store whose products conform to the Product schema, when
    [GET /api/products/{slug}] answers with a product, [GET /api/products]
    without parameters succeeds and that product, as it was sent, is one of
    the products it sends. *)
Theorem get_product_is_listed (d : Database) (environ : gmap string string)
    (slug : string) (item : doc)
    (Hp : holds d "product" Product)
    (Hget : (serve (Some d) environ (GET_product slug)).1 = inr (Item item)) :
  ∃ items,
    (serve (Some d) environ (GET_products None None)).1 = inr (Items items)
    ∧ item ∈ items.
Proof.
  unfold serve in *. cbn [app fst] in *.
  destruct (get_product (Some d) slug) as [f|found] eqn:Hfound; [done|].
  destruct (get_product_stored d slug found Hfound) as [Hd Hin].
  destruct (handlers_without_parameters d Hd) as (_ & -> & _).
  cbn [fmap failure_fmap mbind failure_bind response_model_of serialize]
    in Hget |- *.
  rewrite (conforming_dump_all Product (collection d "product"))
    by (declared || reflexivity || by apply holds_all).
  eexists. split; [reflexivity|].
  assert (dump Product found = inr (dumped Product found)) as Hdump.
  { unfold _serialize_list in Hin.
    apply list_elem_of_In, in_map_iff in Hin as (p & <- & Hp').
    apply conforming_dump; [declared|reflexivity|].
    by apply (holds_all d "product" Product Hp), list_elem_of_In. }
  rewrite Hdump in Hget. injection Hget as <-.
  by apply list_elem_of_fmap_2.
Qed.

Lemma get_product_is_listed_witness :
  ∃ items,
    (serve (Some cms) ∅ (GET_products None None)).1 = inr (Items items)
    ∧ dumped Product (delete "_id" solvent) ∈ items.
Proof.
  apply (get_product_is_listed cms ∅ "solvente-x"); reflexivity.
Defined.

(** X10. On an available store whose categories, products, sectors,
    documents and jobs conform to their schemas, each of these list
    endpoints called without parameters answers with its whole collection,
    in store order: for each stored record, the record without its [_id]
    as its schema serialises it. *)
Theorem listings_without_parameters (d : Database)
    (environ : gmap string string) (Hd : available d)
    (Hc : holds d "category" Category) (Hp : holds d "product" Product)
    (Hs : holds d "sector" Sector) (Hdoc : holds d "document" Document)
    (Hj : holds d "job" Job) :
  serve (Some d) environ GET_categories
  = (inr (Items (dumped Category <$> _serialize_list (collection d "category"))),
     Some d)
  ∧ serve (Some d) environ (GET_products None None)
    = (inr (Items (dumped Product <$> _serialize_list (collection d "product"))),
       Some d)
  ∧ serve (Some d) environ GET_sectors
    = (inr (Items (dumped Sector <$> _serialize_list (collection d "sector"))),
       Some d)
  ∧ serve (Some d) environ (GET_documents None None None)
    = (inr (Items (dumped Document <$> _serialize_list (collection d "document"))),
       Some d)
  ∧ serve (Some d) environ (GET_jobs None)
    = (inr (Items (dumped Job <$> _serialize_list (collection d "job"))),
       Some d).
Proof.
  destruct (handlers_without_parameters d Hd)
    as (Hcs & Hps & Hss & _ & Hds & Hjs).
  unfold serve. cbn [app]. rewrite Hcs, Hps, Hss, Hds, Hjs.
  cbn [fmap failure_fmap mbind failure_bind response_model_of serialize].
  rewrite (conforming_dump_all Category (collection d "category"))
    by (declared || reflexivity || by apply holds_all).
  rewrite (conforming_dump_all Product (collection d "product"))
    by (declared || reflexivity || by apply holds_all).
  rewrite (conforming_dump_all Sector (collection d "sector"))
    by (declared || reflexivity || by apply holds_all).
  rewrite (conforming_dump_all Document (collection d "document"))
    by (declared || reflexivity || by apply holds_all).
  rewrite (conforming_dump_all Job (collection d "job"))
    by (declared || reflexivity || by apply holds_all).
  done.
Qed.

Lemma listings_without_parameters_witness :
  serve (Some site) ∅ GET_sectors
  = (inr (Items [dumped Sector (delete "_id" tannery)]), Some site).
Proof.
  exact (proj1 (proj2 (proj2
           (listings_without_parameters site ∅ eq_refl eq_refl eq_refl eq_refl
              eq_refl eq_refl)))).
Defined.

(** What a schema sends for a conforming record: the declared fields and
    no other, each field that the record has with the value it has. *)
Lemma dumped_conforming schema (p : doc) f :
  schema ∈ schemas → conforms schema p = true → f ∈ schema →
  dom (dumped schema (delete "_id" p)) = list_to_set (field_names schema)
  ∧ ∀ v, p !! field_name f = Some v →
         dumped schema (delete "_id" p) !! field_name f = Some v.
Proof.
  intros Hs Hc Hf.
  pose proof (conforming_validates schema p Hs Hc) as Hv. split.
  - apply (validate_fields_dom schema (delete "_id" p)).
    by apply model_validate_inr.
  - intros v Hp.
    destruct (validated_lookup schema _ _ f Hs Hv Hf) as (x & Hx & Hl & _).
    rewrite Hl. unfold validate_field in Hx.
    rewrite lookup_delete_ne, Hp in Hx by (symmetry; by eapply schemas_no_id).
    destruct (check_type (field_type f) v); [|done]. by injection Hx as <-.
Qed.
